(** * speech/grpc/transcribe_async.py: submit one asynchronous recognition
    job and poll the long-running operation until it is done.

    The script is modelled as an interaction tree.  Every call that leaves
    the script (credentials, channel, the two RPCs, [time.sleep], [print],
    [Any.Unpack]) is an event; what the outside answers is given by a
    [World], and [run] executes a tree against a world with a bound on
    the number of steps, collecting the calls in the order they are made.
    An exception raised inside the script is an event too, one that nothing
    answers. *)

From Stdlib Require Import ZArith List String Ascii Bool Lia PeanoNat.
From Stdlib Require Import Floats.PrimFloat.
From ITree Require Import ITree.
Import ListNotations.
Import ITreeNotations.
Local Open Scope string_scope.
Local Open Scope Z_scope.
Local Open Scope list_scope.
Local Open Scope itree_scope.

(** ** Messages *)

(** [google.protobuf.Any]: a type URL and the serialised payload. *)
Record Any : Type := mkAny {
  type_url : string;
  value : string
}.

Definition Any_default : Any := mkAny "" "".

(** [google.rpc.Status]. *)
Record Status : Type := mkStatus {
  code : Z;
  message : string;
  details : list Any
}.

Definition Status_default : Status := mkStatus 0 "" [].

(** The [result] oneof of [google.longrunning.Operation]. *)
Inductive OperationResult : Type :=
| ResultNotSet
| ResultError (e : Status)
| ResultResponse (r : Any).

Record Operation : Type := mkOperation {
  name : string;
  metadata : Any;
  done : bool;
  result : OperationResult
}.

(** Reading a message field that is not set yields the default message. *)
Definition error (op : Operation) : Status :=
  match result op with
  | ResultError e => e
  | _ => Status_default
  end.

Definition response (op : Operation) : Any :=
  match result op with
  | ResultResponse r => r
  | _ => Any_default
  end.

Record RecognitionConfig : Type := mkRecognitionConfig {
  encoding : string;
  sample_rate : Z;
  language_code : string
}.

Record RecognitionAudio : Type := mkRecognitionAudio {
  uri : string
}.

Record AsyncRecognizeRequest : Type := mkAsyncRecognizeRequest {
  config : RecognitionConfig;
  audio : RecognitionAudio
}.

Record GetOperationRequest : Type := mkGetOperationRequest {
  req_name : string
}.

Record SpeechRecognitionAlternative : Type := mkAlternative {
  transcript : string;
  confidence : float
}.

Record SpeechRecognitionResult : Type := mkResult {
  alternatives : list SpeechRecognitionAlternative
}.

Record AsyncRecognizeResponse : Type := mkResponse {
  results : list SpeechRecognitionResult
}.

(** The channel object returned by [implementations.secure_channel]. *)
Inductive Channel : Type :=
| channel_id (n : nat).

(** ** Constants *)

Definition DEADLINE_SECS : Z := 10.
Definition SPEECH_SCOPE : string := "https://www.googleapis.com/auth/cloud-platform".

(** ** Calls out of the script *)

(** What [print] is given.  Rendering a message or a float as text is the
    library's business; the lines are kept structured. *)
Inductive Output : Type :=
| OutOperation (op : Operation)
| OutWaiting
| OutOperationError (e : Status)
| OutResult
| OutAlternative (c : float) (t : string).

Inductive UsageError : Type :=
| ArgumentTypeError (argument : string) (msg : string)
| InvalidValue (argument : string) (text : string)
| InvalidChoice (argument : string) (text : string).

Inductive Call : Type :=
| GetAccessToken (scopes : list string)
| SecureChannel (host : string) (port : Z) (auth_header : string * string)
| AsyncRecognize (ch : Channel) (req : AsyncRecognizeRequest) (deadline : Z)
| GetOperation (ch : Channel) (req : GetOperationRequest) (deadline : Z)
| Sleep (secs : Z)
| Print (o : Output)
| Unpack (a : Any)
| ParserError (e : UsageError).

Definition reply (c : Call) : Type :=
  match c with
  | GetAccessToken _ => string
  | SecureChannel _ _ _ => Channel
  | AsyncRecognize _ _ _ => Operation
  | GetOperation _ _ _ => Operation
  | Sleep _ => unit
  | Print _ => unit
  | Unpack _ => AsyncRecognizeResponse
  | ParserError _ => unit
  end.

(** Exceptions: [SystemExit] carries the exit status, any other exception
    its class name. *)
Inductive Exn : Type :=
| SystemExit (status : Z)
| Error (kind : string).

(** A call returns a value or raises. *)
Inductive Result (A : Type) : Type :=
| Ok (a : A)
| Raise (e : Exn).
Arguments Ok {A} a.
Arguments Raise {A} e.

(** The events of the script: a call, or an exception being raised. *)
Variant speechE : Type -> Type :=
| Do (c : Call) : speechE (reply c)
| Throw (e : Exn) : speechE Empty_set.

Definition call (c : Call) : itree speechE (reply c) := ITree.trigger (Do c).

Definition throw {R : Type} (e : Exn) : itree speechE R :=
  Vis (Throw e) (fun nothing : Empty_set => match nothing with end).

(** The value of an expression that may raise. *)
Definition value_of {R : Type} (r : Result R) : itree speechE R :=
  match r with
  | Ok a => Ret a
  | Raise e => throw e
  end.

(** ** Building the request *)

Definition INT32_MIN : Z := -2147483648.
Definition INT32_MAX : Z := 2147483647.

Definition in_int32 (z : Z) : bool :=
  (Z.leb INT32_MIN z && Z.leb z INT32_MAX)%bool.

(** [cloud_speech_pb2.RecognitionConfig(encoding=..., sample_rate=...,
    language_code=...)].  In the proto the source points to
    (cloud_speech.proto, v1beta1) [sample_rate] is an [int32] field, and the
    generated constructor refuses a value outside the int32 range with
    [ValueError].  The encoding is kept as the label it is given; the
    command line only ever passes one of the five choices. *)
Definition RecognitionConfig_init (encoding0 : string) (sample_rate0 : Z)
  (language_code0 : string) : Result RecognitionConfig :=
  if in_int32 sample_rate0
  then Ok (mkRecognitionConfig encoding0 sample_rate0 language_code0)
  else Raise (Error "ValueError").

(** ** The script *)

Fixpoint for_each {A : Type} (l : list A) (body : A -> itree speechE unit)
  : itree speechE unit :=
  match l with
  | [] => Ret tt
  | x :: l' => body x ;; for_each l' body
  end.

Definition make_channel (host : string) (port : Z) : itree speechE Channel :=
  access_token <- call (GetAccessToken [SPEECH_SCOPE]) ;;
  let auth_header := ("Authorization", String.append "Bearer " access_token) in
  call (SecureChannel host port auth_header).

Definition nonempty (s : string) : bool :=
  match s with
  | EmptyString => false
  | String _ _ => true
  end.

(** One pass through the body of [while True]: [inl tt] goes round again,
    [inr operation] is the [break]. *)
Definition poll_once (channel : Channel) (name0 : string) (_ : unit)
  : itree speechE (unit + Operation) :=
  call (Print OutWaiting) ;;
  call (Sleep 1) ;;
  operation <- call (GetOperation channel (mkGetOperationRequest name0) DEADLINE_SECS) ;;
  (if nonempty (message (error operation))
   then call (Print (OutOperationError (error operation)))
   else Ret tt) ;;
  if done operation then Ret (inr operation) else Ret (inl tt).

Definition poll (channel : Channel) (name0 : string) : itree speechE Operation :=
  ITree.iter (poll_once channel name0) tt.

Definition print_results (response0 : AsyncRecognizeResponse) : itree speechE unit :=
  for_each (results response0) (fun result0 =>
    call (Print OutResult) ;;
    for_each (alternatives result0) (fun alternative =>
      call (Print (OutAlternative (confidence alternative) (transcript alternative))))).

Definition main (input_uri encoding0 : string) (sample_rate0 : Z) (language_code0 : string)
  : itree speechE unit :=
  channel <- make_channel "speech.googleapis.com" 443 ;;
  config0 <- value_of (RecognitionConfig_init encoding0 sample_rate0 language_code0) ;;
  operation <- call (AsyncRecognize channel
    (mkAsyncRecognizeRequest config0 (mkRecognitionAudio input_uri))
    DEADLINE_SECS) ;;
  call (Print (OutOperation operation)) ;;
  let name0 := name operation in
  operation <- poll channel name0 ;;
  response0 <- call (Unpack (response operation)) ;;
  print_results response0.

(** ** Command line *)

(** The command line as [argparse] has matched it against the three
    declared arguments: the text given for the positional [input_uri] and,
    when the option is present, the text given for [--encoding] and for
    [--sample_rate].  ([-h] and malformed command lines are not modelled.) *)
Record CommandLine : Type := mkCommandLine {
  arg_input_uri : string;
  opt_encoding : option string;
  opt_sample_rate : option string
}.

Record Namespace : Type := mkNamespace {
  ns_input_uri : string;
  ns_encoding : string;
  ns_sample_rate : Z
}.

Definition _gcs_uri (text : string) : string + string :=
  if negb (String.prefix "gs://" text)
  then inl "Cloud Storage uri must be of the form gs://bucket/path/"
  else inr text.

Definition ENCODING_CHOICES : list string :=
  ["LINEAR16"; "FLAC"; "MULAW"; "AMR"; "AMR_WB"].

Definition is_space (c : ascii) : bool :=
  let n := nat_of_ascii c in
  (Nat.eqb n 32 || (Nat.leb 9 n && Nat.leb n 13))%bool.

Fixpoint lstrip (s : string) : string :=
  match s with
  | String c s' => if is_space c then lstrip s' else s
  | EmptyString => EmptyString
  end.

Fixpoint rstrip (s : string) : string :=
  match s with
  | String c s' =>
      match rstrip s' with
      | EmptyString => if is_space c then EmptyString else String c EmptyString
      | r => String c r
      end
  | EmptyString => EmptyString
  end.

Definition digit_value (c : ascii) : option Z :=
  let n := nat_of_ascii c in
  if (Nat.leb 48 n && Nat.leb n 57)%bool then Some (Z.of_nat (n - 48)) else None.

Fixpoint digits_value (acc : Z) (s : string) : option Z :=
  match s with
  | EmptyString => Some acc
  | String c s' =>
      match digit_value c with
      | Some d => digits_value (10 * acc + d) s'
      | None => None
      end
  end.

Definition unsigned_value (s : string) : option Z :=
  match s with
  | EmptyString => None
  | _ => digits_value 0 s
  end.

(** A conversion for the sample command lines: the value of a plain ASCII
    decimal literal (surrounding blanks dropped, one sign allowed, at least
    one digit), on which every version of Python's [int] agrees.  The
    command line below is stated for whatever conversion [int] is. *)
Definition ascii_int (text : string) : option Z :=
  match rstrip (lstrip text) with
  | String "+" s => unsigned_value s
  | String "-" s => option_map Z.opp (unsigned_value s)
  | s => unsigned_value s
  end.

(** [parser.parse_args()]: each given text goes through the argument's
    [type] and [choices]; an option that is absent takes its default.
    [py_int] is Python's builtin [int] on text, [None] where it raises
    [ValueError]: the [type] of [--sample_rate]. *)
Definition parse_args (py_int : string -> option Z) (argv : CommandLine)
  : UsageError + Namespace :=
  match _gcs_uri (arg_input_uri argv) with
  | inl msg => inl (ArgumentTypeError "input_uri" msg)
  | inr input_uri =>
      match
        match opt_encoding argv with
        | None => inr "LINEAR16"
        | Some text =>
            if existsb (String.eqb text) ENCODING_CHOICES
            then inr text
            else inl (InvalidChoice "--encoding" text)
        end
      with
      | inl e => inl e
      | inr encoding0 =>
          match
            match opt_sample_rate argv with
            | None => inr 16000
            | Some text =>
                match py_int text with
                | Some n => inr n
                | None => inl (InvalidValue "--sample_rate" text)
                end
            end
          with
          | inl e => inl e
          | inr sample_rate0 => inr (mkNamespace input_uri encoding0 sample_rate0)
          end
      end
  end.

(** The [if __name__ == '__main__':] block.  [parser.error] does not
    return: it leaves through [SystemExit]. *)
Definition script (py_int : string -> option Z) (argv : CommandLine)
  : itree speechE unit :=
  match parse_args py_int argv with
  | inl e => call (ParserError e) ;; Ret tt
  | inr args => main (ns_input_uri args) (ns_encoding args) (ns_sample_rate args) "en-US"
  end.

(** ** The outside world and bounded execution *)

(** What the outside does to each call.  [polled n] is the service's
    answer to the [n]-th [GetOperation] query, counted from 0. *)
Record World : Type := mkWorld {
  access_token_reply : Result string;
  channel_reply : Result Channel;
  submitted : AsyncRecognizeRequest -> Result Operation;
  polled : nat -> Result Operation;
  unpacked : Any -> Result AsyncRecognizeResponse
}.

Definition answer (w : World) (n : nat) (c : Call) : Result (reply c) :=
  match c with
  | GetAccessToken _ => access_token_reply w
  | SecureChannel _ _ _ => channel_reply w
  | AsyncRecognize _ req _ => submitted w req
  | GetOperation _ _ _ => polled w n
  | Sleep _ => Ok tt
  | Print _ => Ok tt
  | Unpack a => unpacked w a
  | ParserError _ => Raise (SystemExit 2)
  end.

Definition is_query (c : Call) : bool :=
  match c with
  | GetOperation _ _ _ => true
  | _ => false
  end.

Definition queries_after (n : nat) (c : Call) : nat :=
  if is_query c then S n else n.

Inductive Outcome (R : Type) : Type :=
| Finished (r : R)
| Raised (e : Exn)
| Running.
Arguments Finished {R} r.
Arguments Raised {R} e.
Arguments Running {R}.

(** What a bounded execution reports: the calls made, in order; how many
    queries the service has answered by then; the steps still allowed; and
    how far the script got. *)
Record Run (R : Type) : Type := mkRun {
  calls : list Call;
  asked : nat;
  fuel_left : nat;
  outcome : Outcome R
}.
Arguments mkRun {R} calls asked fuel_left outcome.
Arguments calls {R} r.
Arguments asked {R} r.
Arguments fuel_left {R} r.
Arguments outcome {R} r.

(** [run fuel w n t]: [t] in world [w], [n] queries having been answered
    before.  Each call and each turn of a loop takes one unit of [fuel];
    returning and raising take none. *)
Fixpoint run {R : Type} (fuel : nat) (w : World) (n : nat) (t : itree speechE R)
  : Run R :=
  match observe t with
  | RetF r => mkRun [] n fuel (Finished r)
  | TauF t' =>
      match fuel with
      | O => mkRun [] n O Running
      | S fuel' => run fuel' w n t'
      end
  | VisF e k =>
      match e in speechE T return (T -> itree speechE R) -> Run R with
      | Do c => fun k =>
          match fuel with
          | O => mkRun [] n O Running
          | S fuel' =>
              match answer w n c with
              | Ok a =>
                  let r := run fuel' w (queries_after n c) (k a) in
                  mkRun (c :: calls r) (asked r) (fuel_left r) (outcome r)
              | Raise x => mkRun [c] n fuel' (Raised x)
              end
          end
      | Throw x => fun _ => mkRun [] n fuel (Raised x)
      end k
  end.

(** The process exit status, once the script has stopped. *)
Definition exit_status (o : Outcome unit) : option Z :=
  match o with
  | Finished _ => Some 0
  | Raised (SystemExit status) => Some status
  | Raised (Error _) => Some 1
  | Running => None
  end.

(** Sequencing of bounded executions: what [run] does on a bind. *)
Definition and_then {A B : Type} (r : Run A) (f : A -> nat -> nat -> Run B) : Run B :=
  match outcome r with
  | Finished x =>
      let r' := f x (fuel_left r) (asked r) in
      mkRun (calls r ++ calls r') (asked r') (fuel_left r') (outcome r')
  | Raised e => mkRun (calls r) (asked r) (fuel_left r) (Raised e)
  | Running => mkRun (calls r) (asked r) (fuel_left r) Running
  end.

(** ** Describing executions *)

(** What one call contributes. *)
Definition react {R : Type} (w : World) (n fuel : nat) (e : speechE R) : Run R :=
  match e in speechE T return Run T with
  | Do c =>
      match fuel with
      | O => mkRun [] n O Running
      | S fuel' =>
          match answer w n c with
          | Ok a => mkRun [c] (queries_after n c) fuel' (Finished a)
          | Raise x => mkRun [c] n fuel' (Raised x)
          end
      end
  | Throw x => mkRun [] n fuel (Raised x)
  end.

Definition query (channel : Channel) (name0 : string) : Call :=
  GetOperation channel (mkGetOperationRequest name0) DEADLINE_SECS.

(** The calls of one pass through the loop body in which the service
    answered [op]. *)
Definition warning (op : Operation) : list Call :=
  if nonempty (message (error op))
  then [Print (OutOperationError (error op))]
  else [].

Definition pass (channel : Channel) (name0 : string) (op : Operation) : list Call :=
  [Print OutWaiting; Sleep 1; query channel name0] ++ warning op.

Definition verdict (op : Operation) : unit + Operation :=
  if done op then inr op else inl tt.

(** Every bounded execution of the loop, started when [n] queries have been
    answered, has one of these shapes: it is cut short inside a pass, a
    query raises, a pass ends with [done] set, or a pass ends with [done]
    not set and the loop goes round again. *)
Inductive poll_trace (channel : Channel) (name0 : string) (w : World)
  : nat -> list Call -> Outcome Operation -> Prop :=
| poll_cut0 n :
    poll_trace channel name0 w n [] Running
| poll_cut1 n :
    poll_trace channel name0 w n [Print OutWaiting] Running
| poll_cut2 n :
    poll_trace channel name0 w n [Print OutWaiting; Sleep 1] Running
| poll_cut3 n op :
    polled w n = Ok op ->
    poll_trace channel name0 w n [Print OutWaiting; Sleep 1; query channel name0] Running
| poll_raise n x :
    polled w n = Raise x ->
    poll_trace channel name0 w n [Print OutWaiting; Sleep 1; query channel name0] (Raised x)
| poll_break n op :
    polled w n = Ok op -> done op = true ->
    poll_trace channel name0 w n (pass channel name0 op) (Finished op)
| poll_again n op tr o :
    polled w n = Ok op -> done op = false ->
    poll_trace channel name0 w (S n) tr o ->
    poll_trace channel name0 w n (pass channel name0 op ++ tr) o.

Definition request (input_uri encoding0 : string) (sample_rate0 : Z) (language_code0 : string)
  : AsyncRecognizeRequest :=
  mkAsyncRecognizeRequest
    (mkRecognitionConfig encoding0 sample_rate0 language_code0)
    (mkRecognitionAudio input_uri).

(** The calls before the loop, when none of them raises. *)
Definition startup (token : string) (channel : Channel) (req : AsyncRecognizeRequest)
  (op0 : Operation) : list Call :=
  [GetAccessToken [SPEECH_SCOPE];
   SecureChannel "speech.googleapis.com" 443 ("Authorization", String.append "Bearer " token);
   AsyncRecognize channel req DEADLINE_SECS;
   Print (OutOperation op0)].

Definition startup_call (req : AsyncRecognizeRequest) (c : Call) : Prop :=
  match c with
  | GetAccessToken _ => True
  | SecureChannel _ _ _ => True
  | AsyncRecognize _ r d => r = req /\ d = DEADLINE_SECS
  | Print (OutOperation _) => True
  | _ => False
  end.

(** The calls after the loop. *)
Definition report_call (c : Call) : Prop :=
  match c with
  | Unpack _ => True
  | Print OutResult => True
  | Print (OutAlternative _ _) => True
  | _ => False
  end.

Definition is_sleep (c : Call) : bool :=
  match c with
  | Sleep _ => true
  | _ => false
  end.

Definition count (p : Call -> bool) (tr : list Call) : nat :=
  List.length (filter p tr).

(** [first_done w n k op]: counting from the [n]-th query, the [k]-th answer
    is the first with [done] set, and it is [op]; the answers before it are
    handles with [done] not set, whatever error they carry. *)
Definition first_done (w : World) (n k : nat) (op : Operation) : Prop :=
  polled w (n + k) = Ok op /\ done op = true /\
  forall j, (j < k)%nat ->
    exists opj, polled w (n + j) = Ok opj /\ done opj = false.

(** ** Sample worlds *)

Definition demo_channel : Channel := channel_id 0.

Definition op_submitted : Operation :=
  mkOperation "operations/42" Any_default false ResultNotSet.

Definition op_pending : Operation :=
  mkOperation "operations/42" Any_default false ResultNotSet.

(** An error is reported while the operation is still open. *)
Definition op_failing : Operation :=
  mkOperation "operations/42" Any_default false
    (ResultError (mkStatus 13 "internal failure" [])).

(** An error with a code and no message. *)
Definition op_code_only : Operation :=
  mkOperation "operations/42" Any_default false
    (ResultError (mkStatus 13 "" [])).

(** The final handle; the service names it differently. *)
Definition op_renamed_done : Operation :=
  mkOperation "operations/other" Any_default true
    (ResultResponse (mkAny "type.googleapis.com/google.cloud.speech.v1beta1.AsyncRecognizeResponse"
                           "payload")).

Definition demo_response : AsyncRecognizeResponse :=
  mkResponse [mkResult [mkAlternative "hello world" 0.5%float]].

(** Pending, then failing, then done. *)
Definition demo_world : World :=
  mkWorld (Ok "token") (Ok demo_channel)
    (fun _ => Ok op_submitted)
    (fun n => match n with
              | 0%nat => Ok op_pending
              | 1%nat => Ok op_failing
              | _ => Ok op_renamed_done
              end)
    (fun _ => Ok demo_response).

(** The submission reply already has [done] set. *)
Definition eager_world : World :=
  mkWorld (Ok "token") (Ok demo_channel)
    (fun _ => Ok op_renamed_done)
    (fun _ => Ok op_renamed_done)
    (fun _ => Ok demo_response).

(** The service never reports [done]. *)
Definition stalled_world : World :=
  mkWorld (Ok "token") (Ok demo_channel)
    (fun _ => Ok op_submitted)
    (fun _ => Ok op_pending)
    (fun _ => Ok demo_response).

(** ** Properties of call sequences *)

(** Each query comes directly after a one-second sleep. *)
Definition slept_before_each_query (tr : list Call) : Prop :=
  forall pre c post,
    tr = pre ++ c :: post -> is_query c = true ->
    exists pre', pre = pre' ++ [Sleep 1].

(** The calls the loop makes, for a given channel and operation name. *)
Definition poll_call (channel : Channel) (name0 : string) (c : Call) : Prop :=
  match c with
  | Print OutWaiting => True
  | Sleep secs => secs = 1
  | GetOperation ch req d => ch = channel /\ req = mkGetOperationRequest name0 /\ d = DEADLINE_SECS
  | Print (OutOperationError e) => nonempty (message e) = true
  | _ => False
  end.

(** An RPC carries the ten-second deadline. *)
Definition deadline_bounded (c : Call) : Prop :=
  match c with
  | AsyncRecognize _ _ d => d = 10
  | GetOperation _ _ d => d = 10
  | _ => True
  end.

(** A call that reaches out over the network. *)
Definition is_network (c : Call) : bool :=
  match c with
  | GetAccessToken _ => true
  | SecureChannel _ _ _ => true
  | AsyncRecognize _ _ _ => true
  | GetOperation _ _ _ => true
  | _ => false
  end.

Definition is_warning (c : Call) : bool :=
  match c with
  | Print (OutOperationError _) => true
  | _ => false
  end.

(** The first polled handle carries another name and is not done. *)
Definition op_renamed_pending : Operation :=
  mkOperation "operations/other" Any_default false ResultNotSet.

Definition renaming_world : World :=
  mkWorld (Ok "token") (Ok demo_channel)
    (fun _ => Ok op_submitted)
    (fun n => match n with
              | 0%nat => Ok op_renamed_pending
              | _ => Ok op_renamed_done
              end)
    (fun _ => Ok demo_response).

(** The polled handle has an error code and no message. *)
Definition code_only_world : World :=
  mkWorld (Ok "token") (Ok demo_channel)
    (fun _ => Ok op_submitted)
    (fun _ => Ok op_code_only)
    (fun _ => Ok demo_response).

(** The service never reports [done]: every answer is a handle with
    [done] not set. *)
Definition never_done (w : World) : Prop :=
  forall n, exists op, polled w n = Ok op /\ done op = false.

(** The message of [_gcs_uri]. *)
Definition GCS_URI_MESSAGE : string :=
  "Cloud Storage uri must be of the form gs://bucket/path/".

Definition is_usage_error (c : Call) : bool :=
  match c with
  | ParserError _ => true
  | _ => false
  end.

(** ** Describing whole executions *)

(** [answers w n ops]: from the [n]-th query on, the service answers with
    the handles [ops], in this order. *)
Fixpoint answers (w : World) (n : nat) (ops : list Operation) : Prop :=
  match ops with
  | [] => True
  | op :: ops' => polled w n = Ok op /\ answers w (S n) ops'
  end.

Definition pending (op : Operation) : bool := negb (done op).

(** Steps of one pass that goes round again: its calls and the turn of the
    loop. *)
Definition pass_cost (op : Operation) : nat :=
  if nonempty (message (error op)) then 5%nat else 4%nat.

Definition passes (channel : Channel) (name0 : string) (ops : list Operation) : list Call :=
  flat_map (pass channel name0) ops.

Fixpoint passes_cost (ops : list Operation) : nat :=
  match ops with
  | [] => 0%nat
  | op :: ops' => (pass_cost op + passes_cost ops')%nat
  end.

(** The lines printed for one result, and for a whole response. *)
Definition alternative_line (alternative : SpeechRecognitionAlternative) : Call :=
  Print (OutAlternative (confidence alternative) (transcript alternative)).

Definition result_lines (result0 : SpeechRecognitionResult) : list Call :=
  Print OutResult :: map alternative_line (alternatives result0).

Definition report_lines (response0 : AsyncRecognizeResponse) : list Call :=
  flat_map result_lines (results response0).

(** Printing [lines] with [fuel] steps allowed: as many of them as the
    steps allow. *)
Definition said (lines : list Call) (fuel n : nat) : Run unit :=
  mkRun (firstn fuel lines) n (fuel - List.length lines)
        (if Nat.leb (List.length lines) fuel then Finished tt else Running).

Definition is_print (c : Call) : bool :=
  match c with
  | Print _ => true
  | _ => false
  end.

Definition is_submission (c : Call) : bool :=
  match c with
  | AsyncRecognize _ _ _ => true
  | _ => false
  end.

Definition is_unpack (c : Call) : bool :=
  match c with
  | Unpack _ => true
  | _ => false
  end.

(** What follows the loop, for the handle it returned. *)
Definition report (operation : Operation) : itree speechE unit :=
  response0 <- call (Unpack (response operation)) ;;
  print_results response0.

(** The second query runs into its deadline. *)
Definition broken_world : World :=
  mkWorld (Ok "token") (Ok demo_channel)
    (fun _ => Ok op_submitted)
    (fun n => match n with
              | 0%nat => Ok op_pending
              | _ => Raise (Error "DeadlineExceeded")
              end)
    (fun _ => Ok demo_response).

(** The final payload cannot be decoded. *)
Definition undecodable_world : World :=
  mkWorld (Ok "token") (Ok demo_channel)
    (fun _ => Ok op_submitted)
    (fun _ => Ok op_renamed_done)
    (fun _ => Raise (Error "DecodeError")).

(** No credentials in the environment. *)
Definition anonymous_world : World :=
  mkWorld (Raise (Error "ApplicationDefaultCredentialsError")) (Ok demo_channel)
    (fun _ => Ok op_submitted)
    (fun _ => Ok op_renamed_done)
    (fun _ => Ok demo_response).

(** The submission runs into its deadline. *)
Definition unreachable_world : World :=
  mkWorld (Ok "token") (Ok demo_channel)
    (fun _ => Raise (Error "DeadlineExceeded"))
    (fun _ => Ok op_renamed_done)
    (fun _ => Ok demo_response).

(** The calls of a start-up that did not get through: it ran out of steps
    or one of its calls raised. *)
Definition early_calls (w : World) (req : AsyncRecognizeRequest) (tr : list Call) : Prop :=
  tr = [] \/
  tr = [GetAccessToken [SPEECH_SCOPE]] \/
  (exists token,
     access_token_reply w = Ok token /\
     tr = [GetAccessToken [SPEECH_SCOPE];
           SecureChannel "speech.googleapis.com" 443
             ("Authorization", String.append "Bearer " token)]) \/
  (exists token channel,
     access_token_reply w = Ok token /\
     channel_reply w = Ok channel /\
     tr = [GetAccessToken [SPEECH_SCOPE];
           SecureChannel "speech.googleapis.com" 443
             ("Authorization", String.append "Bearer " token);
           AsyncRecognize channel req DEADLINE_SECS]).

(** The calls once start-up is through: the loop, then the report for the
    handle the loop returned, if it returned. *)
Definition started_calls (w : World) (channel : Channel) (op0 : Operation)
  (tr : list Call) : Prop :=
  exists ptr o post,
    tr = ptr ++ post /\
    poll_trace channel (name op0) w 0 ptr o /\
    (post = [] \/
     exists operation fuel n,
       o = Finished operation /\
       post = calls (run fuel w n (report operation))).

(** What each set-up or RPC call of [main] must look like in world [w]:
    the token is asked for the one scope, the channel goes to the speech
    endpoint with the token as bearer, and the RPCs go over that channel. *)
Definition wired (w : World) (c : Call) : Prop :=
  match c with
  | GetAccessToken scopes => scopes = [SPEECH_SCOPE]
  | SecureChannel host port auth_header =>
      host = "speech.googleapis.com" /\ port = 443 /\
      exists token,
        access_token_reply w = Ok token /\
        auth_header = ("Authorization", String.append "Bearer " token)
  | AsyncRecognize ch _ _ => channel_reply w = Ok ch
  | GetOperation ch _ _ => channel_reply w = Ok ch
  | _ => True
  end.

Definition is_channel_setup (c : Call) : bool :=
  match c with
  | GetAccessToken _ => true
  | SecureChannel _ _ _ => true
  | _ => false
  end.

Definition is_waiting (c : Call) : bool :=
  match c with
  | Print OutWaiting => true
  | _ => false
  end.

Definition has_message (op : Operation) : bool := nonempty (message (error op)).

(** ** Facts about bounded execution *)

Lemma run_observe {R : Type} (t t' : itree speechE R) :
  observe t = observe t' ->
  forall fuel w n, run fuel w n t = run fuel w n t'.
Proof.
  intros H fuel w n. destruct fuel; simpl; rewrite H; reflexivity.
Qed.

Lemma run_Ret {R : Type} (x : R) fuel w n :
  run fuel w n (Ret x) = mkRun [] n fuel (Finished x).
Proof. destruct fuel; reflexivity. Qed.

Lemma run_trigger {R : Type} (e : speechE R) fuel w n :
  run fuel w n (ITree.trigger e) = react w n fuel e.
Proof.
  destruct e as [c|x].
  - destruct fuel as [|fuel']; [reflexivity|].
    cbn. destruct (answer w n c); [|reflexivity].
    destruct fuel'; reflexivity.
  - destruct fuel; reflexivity.
Qed.

Lemma run_call (c : Call) fuel w n :
  run fuel w n (call c) =
  match fuel with
  | O => mkRun [] n O Running
  | S fuel' =>
      match answer w n c with
      | Ok a => mkRun [c] (queries_after n c) fuel' (Finished a)
      | Raise x => mkRun [c] n fuel' (Raised x)
      end
  end.
Proof. apply (run_trigger (Do c)). Qed.

Lemma run_throw {R : Type} (x : Exn) fuel w n :
  run fuel w n (throw x : itree speechE R) = mkRun [] n fuel (Raised x).
Proof. destruct fuel; reflexivity. Qed.

Lemma observe_bind {A B : Type} (t : itree speechE A) (k : A -> itree speechE B) :
  observe (ITree.bind t k) =
  observe (match observe t with
           | RetF r => k r
           | TauF t' => Tau (ITree.bind t' k)
           | VisF e h => Vis e (fun x => ITree.bind (h x) k)
           end).
Proof. reflexivity. Qed.

Lemma observe_iter {I R : Type} (body : I -> itree speechE (I + R)) (i : I) :
  observe (ITree.iter body i) =
  observe (ITree.bind (body i) (fun lr =>
             match lr with
             | inl l => Tau (ITree.iter body l)
             | inr r => Ret r
             end)).
Proof. reflexivity. Qed.

Lemma and_then_eta {A : Type} (r : Run A) :
  mkRun (calls r) (asked r) (fuel_left r) (outcome r) = r.
Proof. destruct r; reflexivity. Qed.

Lemma run_bind {A B : Type} (k : A -> itree speechE B) w :
  forall fuel n (t : itree speechE A),
    run fuel w n (ITree.bind t k) =
    and_then (run fuel w n t) (fun x fuel' n' => run fuel' w n' (k x)).
Proof.
  induction fuel as [|fuel IH]; intros n t;
    rewrite (run_observe _ _ (observe_bind t k)).
  - cbn. destruct (observe t) as [r|t'|X e h]; cbn.
    + unfold and_then; cbn. symmetry; apply and_then_eta.
    + reflexivity.
    + destruct e; reflexivity.
  - cbn. destruct (observe t) as [r|t'|X e h]; cbn.
    + unfold and_then; cbn. symmetry; apply and_then_eta.
    + apply IH.
    + destruct e as [c|x]; [|reflexivity].
      destruct (answer w n c) as [a|x]; [|reflexivity].
      rewrite IH. unfold and_then; cbn.
      destruct (outcome (run fuel w (queries_after n c) (h a))); reflexivity.
Qed.

Lemma run_value_of {R : Type} (r : Result R) fuel w n :
  run fuel w n (value_of r) =
  match r with
  | Ok a => mkRun [] n fuel (Finished a)
  | Raise x => mkRun [] n fuel (Raised x)
  end.
Proof. destruct r; [apply run_Ret|apply run_throw]. Qed.

Lemma and_then_ext {A B : Type} (r : Run A) (f g : A -> nat -> nat -> Run B) :
  (forall x fuel n, f x fuel n = g x fuel n) ->
  and_then r f = and_then r g.
Proof.
  intros H. unfold and_then. destruct (outcome r); [rewrite H|..]; reflexivity.
Qed.

Lemma run_iter {I R : Type} (body : I -> itree speechE (I + R)) w fuel n i :
  run fuel w n (ITree.iter body i) =
  and_then (run fuel w n (body i)) (fun lr fuel' n' =>
    match lr with
    | inl l =>
        match fuel' with
        | O => mkRun [] n' O Running
        | S fuel'' => run fuel'' w n' (ITree.iter body l)
        end
    | inr r => mkRun [] n' fuel' (Finished r)
    end).
Proof.
  rewrite (run_observe _ _ (observe_iter body i)), run_bind.
  apply and_then_ext. intros [l|r] fuel' n'.
  - destruct fuel'; reflexivity.
  - apply run_Ret.
Qed.

Arguments run : simpl never.

(** One step of symbolic execution. *)
Ltac run_step :=
  progress (unfold call, RecognitionConfig_init;
            rewrite ?run_bind, ?run_trigger, ?run_value_of, ?run_Ret;
            unfold and_then;
            cbn [react outcome calls asked fuel_left answer queries_after is_query app]).

(** ** The poll loop, one pass at a time *)

Lemma run_poll_once channel name0 w n fuel :
  run fuel w n (poll_once channel name0 tt) =
  match fuel with
  | 0%nat => mkRun [] n 0 Running
  | 1%nat => mkRun [Print OutWaiting] n 0 Running
  | 2%nat => mkRun [Print OutWaiting; Sleep 1] n 0 Running
  | S (S (S fuel3)) =>
      match polled w n with
      | Raise x =>
          mkRun [Print OutWaiting; Sleep 1; query channel name0] n fuel3 (Raised x)
      | Ok op =>
          if nonempty (message (error op)) then
            match fuel3 with
            | O => mkRun [Print OutWaiting; Sleep 1; query channel name0] (S n) 0 Running
            | S fuel4 => mkRun (pass channel name0 op) (S n) fuel4 (Finished (verdict op))
            end
          else mkRun (pass channel name0 op) (S n) fuel3 (Finished (verdict op))
      end
  end.
Proof.
  unfold poll_once, pass, warning, verdict, query.
  destruct fuel as [|[|[|fuel3]]]; repeat run_step; try reflexivity.
  destruct (polled w n) as [op|x]; repeat run_step; [|reflexivity].
  destruct (nonempty (message (error op))); repeat run_step.
  - destruct fuel3 as [|fuel4]; repeat run_step; [reflexivity|].
    destruct (done op); repeat run_step; reflexivity.
  - destruct (done op); repeat run_step; reflexivity.
Qed.

(** ** The poll loop as a whole *)

Lemma run_poll channel name0 w fuel n :
  run fuel w n (poll channel name0) =
  and_then (run fuel w n (poll_once channel name0 tt)) (fun lr fuel' n' =>
    match lr with
    | inl _ =>
        match fuel' with
        | O => mkRun [] n' O Running
        | S fuel'' => run fuel'' w n' (poll channel name0)
        end
    | inr op => mkRun [] n' fuel' (Finished op)
    end).
Proof.
  unfold poll. rewrite run_iter. apply and_then_ext.
  intros [[]|op] fuel' n'; reflexivity.
Qed.

Lemma poll_trace_run channel name0 w :
  forall fuel n,
    poll_trace channel name0 w n
      (calls (run fuel w n (poll channel name0)))
      (outcome (run fuel w n (poll channel name0))).
Proof.
  induction fuel as [fuel IH] using lt_wf_ind. intros n.
  rewrite run_poll, run_poll_once.
  destruct fuel as [|[|[|fuel3]]]; unfold and_then; cbn [outcome calls];
    try (constructor; fail).
  destruct (polled w n) as [op|x] eqn:Hp; [|cbn; now constructor].
  assert (Hend : forall f, (f < S (S (S fuel3)))%nat ->
    poll_trace channel name0 w n
      (pass channel name0 op ++
       calls match verdict op with
             | inl _ => match f with
                        | O => mkRun [] (S n) O Running
                        | S f' => run f' w (S n) (poll channel name0)
                        end
             | inr op' => mkRun [] (S n) f (Finished op')
             end)
      (outcome match verdict op with
               | inl _ => match f with
                          | O => mkRun [] (S n) O Running
                          | S f' => run f' w (S n) (poll channel name0)
                          end
               | inr op' => mkRun [] (S n) f (Finished op')
               end)).
  { intros f Hf. unfold verdict. destruct (done op) eqn:Hd.
    - cbn. rewrite app_nil_r. now apply poll_break.
    - apply poll_again; trivial.
      destruct f as [|f']; [constructor|]. apply IH. lia. }
  destruct (nonempty (message (error op))) eqn:Hm.
  - destruct fuel3 as [|fuel4]; cbn [outcome calls].
    + eapply poll_cut3; eassumption.
    + cbn [fuel_left asked]. apply Hend. lia.
  - cbn [outcome calls fuel_left asked]. apply Hend. lia.
Qed.

(** ** The script as a whole *)

Lemma Forall_calls_and_then {A B : Type} (P : Call -> Prop) (r : Run A)
  (f : A -> nat -> nat -> Run B) :
  Forall P (calls r) ->
  (forall x fuel n, Forall P (calls (f x fuel n))) ->
  Forall P (calls (and_then r f)).
Proof.
  intros Hr Hf. unfold and_then.
  destruct (outcome r); cbn [calls]; trivial.
  apply Forall_app; split; trivial.
Qed.

Lemma Forall_calls_call (P : Call -> Prop) c fuel w n :
  P c -> Forall P (calls (run fuel w n (call c))).
Proof.
  intros Hc. rewrite run_call.
  destruct fuel; [constructor|].
  destruct (answer w n c); cbn [calls]; repeat constructor; trivial.
Qed.

Lemma Forall_calls_for_each {A : Type} (P : Call -> Prop) (body : A -> itree speechE unit) w :
  (forall x fuel n, Forall P (calls (run fuel w n (body x)))) ->
  forall l fuel n, Forall P (calls (run fuel w n (for_each l body))).
Proof.
  intros Hbody. induction l as [|x l IH]; intros fuel n; cbn [for_each].
  - rewrite run_Ret. constructor.
  - rewrite run_bind. apply Forall_calls_and_then; auto.
Qed.

Lemma report_print_results w response0 fuel n :
  Forall report_call (calls (run fuel w n (print_results response0))).
Proof.
  unfold print_results. apply Forall_calls_for_each.
  intros result0 fuel' n'. rewrite run_bind.
  apply Forall_calls_and_then.
  - exact (Forall_calls_call report_call (Print OutResult) _ _ _ I).
  - intros _ fuel'' n''. apply Forall_calls_for_each.
    intros alternative fuel3 n3.
    exact (Forall_calls_call report_call (Print (OutAlternative _ _)) _ _ _ I).
Qed.

Lemma report_after_poll w (operation : Operation) fuel n :
  Forall report_call
    (calls (run fuel w n
       (response0 <- call (Unpack (response operation)) ;; print_results response0))).
Proof.
  rewrite run_bind. apply Forall_calls_and_then.
  - exact (Forall_calls_call report_call (Unpack _) _ _ _ I).
  - intros. apply report_print_results.
Qed.

(** Every bounded execution of [main] is a stretch of start-up calls, then
    a bounded execution of the loop, then a stretch of reporting calls; the
    loop is entered only after the whole start-up, with the channel and
    the operation name that start-up produced. *)
Lemma main_shape input_uri encoding0 sample_rate0 language_code0 w fuel :
  exists pre ptr post,
    calls (run fuel w 0 (main input_uri encoding0 sample_rate0 language_code0))
      = pre ++ ptr ++ post /\
    Forall (startup_call (request input_uri encoding0 sample_rate0 language_code0)) pre /\
    Forall report_call post /\
    (ptr = [] \/
     exists token channel op0 o,
       access_token_reply w = Ok token /\
       channel_reply w = Ok channel /\
       submitted w (request input_uri encoding0 sample_rate0 language_code0) = Ok op0 /\
       pre = startup token channel
               (request input_uri encoding0 sample_rate0 language_code0) op0 /\
       poll_trace channel (name op0) w 0 ptr o).
Proof.
  set (req := request input_uri encoding0 sample_rate0 language_code0).
  assert (Hearly : forall pre, Forall (startup_call req) pre ->
    exists pre' ptr post, pre = pre' ++ ptr ++ post /\
      Forall (startup_call req) pre' /\ Forall report_call post /\
      (ptr = [] \/
       exists token channel op0 o,
         access_token_reply w = Ok token /\ channel_reply w = Ok channel /\
         submitted w req = Ok op0 /\ pre' = startup token channel req op0 /\
         poll_trace channel (name op0) w 0 ptr o)).
  { intros pre Hpre. exists pre, [], []. rewrite app_nil_r. auto. }
  unfold main, make_channel.
  destruct fuel as [|f1]; repeat run_step.
  { apply Hearly. constructor. }
  destruct (access_token_reply w) as [token|x] eqn:Ht; repeat run_step;
    [|apply Hearly; repeat constructor].
  destruct f1 as [|f2]; repeat run_step.
  { apply Hearly. repeat constructor. }
  destruct (channel_reply w) as [channel|x] eqn:Hc; repeat run_step;
    [|apply Hearly; repeat constructor].
  destruct (in_int32 sample_rate0) eqn:Hrange; repeat run_step;
    [|apply Hearly; repeat constructor].
  fold (request input_uri encoding0 sample_rate0 language_code0). fold req.
  destruct f2 as [|f3]; repeat run_step.
  { apply Hearly. repeat constructor. }
  destruct (submitted w req) as [op0|x] eqn:Hs; repeat run_step;
    [|apply Hearly; repeat constructor].
  destruct f3 as [|f4]; repeat run_step.
  { apply Hearly. repeat constructor. }
  pose proof (poll_trace_run channel (name op0) w f4 0) as Hpoll.
  pose proof (fun operation => report_after_poll w operation) as Hreport.
  destruct (outcome (run f4 w 0 (poll channel (name op0)))) as [operation|x|] eqn:Ho.
  - exists (startup token channel req op0),
      (calls (run f4 w 0 (poll channel (name op0)))),
      (calls (run (fuel_left (run f4 w 0 (poll channel (name op0)))) w
                (asked (run f4 w 0 (poll channel (name op0))))
                (response0 <- call (Unpack (response operation)) ;;
                 print_results response0))).
    split; [reflexivity|]. split; [repeat constructor|]. split; [apply Hreport|].
    right. exists token, channel, op0, (Finished operation). auto.
  - exists (startup token channel req op0),
      (calls (run f4 w 0 (poll channel (name op0)))), [].
    split; [rewrite app_nil_r; reflexivity|]. split; [repeat constructor|].
    split; [constructor|].
    right. exists token, channel, op0, (Raised x). auto.
  - exists (startup token channel req op0),
      (calls (run f4 w 0 (poll channel (name op0)))), [].
    split; [rewrite app_nil_r; reflexivity|]. split; [repeat constructor|].
    split; [constructor|].
    right. exists token, channel, op0, Running. auto.
Qed.

(** [main] returns only after the loop has returned. *)
Lemma main_finished_poll_finished input_uri encoding0 sample_rate0 language_code0 w fuel u :
  outcome (run fuel w 0 (main input_uri encoding0 sample_rate0 language_code0)) = Finished u ->
  exists channel op0 fuel' operation,
    outcome (run fuel' w 0 (poll channel (name op0))) = Finished operation.
Proof.
  unfold main, make_channel.
  destruct fuel as [|f1]; repeat run_step; [discriminate|].
  destruct (access_token_reply w) as [token|x]; repeat run_step; [|discriminate].
  destruct f1 as [|f2]; repeat run_step; [discriminate|].
  destruct (channel_reply w) as [channel|x]; repeat run_step; [|discriminate].
  destruct (in_int32 sample_rate0); repeat run_step; [|discriminate].
  destruct f2 as [|f3]; repeat run_step; [discriminate|].
  destruct (submitted w _) as [op0|x]; repeat run_step; [|discriminate].
  destruct f3 as [|f4]; repeat run_step; [discriminate|].
  destruct (outcome (run f4 w 0 (poll channel (name op0)))) as [operation|x|] eqn:Ho;
    cbn [outcome]; try discriminate.
  intros _. exists channel, op0, f4, operation. exact Ho.
Qed.

(** ** Counting calls *)

Lemma count_app p a b : count p (a ++ b) = (count p a + count p b)%nat.
Proof. unfold count. rewrite filter_app, length_app. reflexivity. Qed.

Lemma count_pass_queries channel name0 op :
  count is_query (pass channel name0 op) = 1%nat.
Proof.
  unfold pass, warning. destruct (nonempty (message (error op))); reflexivity.
Qed.

Lemma startup_call_not_query req c : startup_call req c -> is_query c = false.
Proof. destruct c; cbn; intros H; try reflexivity; contradiction. Qed.

Lemma report_call_not_query c : report_call c -> is_query c = false.
Proof. destruct c; cbn; intros H; try reflexivity; contradiction. Qed.

Lemma count_none p tr : Forall (fun c => p c = false) tr -> count p tr = 0%nat.
Proof.
  unfold count. induction 1 as [|c tr Hc _ IH]; cbn; [reflexivity|].
  rewrite Hc. exact IH.
Qed.

(** ** When the loop stops *)

Lemma first_done_next w n k op :
  first_done w n (S k) op -> first_done w (S n) k op.
Proof.
  intros (Hk & Hd & Hj). repeat split; trivial.
  - rewrite <- Hk. f_equal. lia.
  - intros j Hlt. destruct (Hj (S j)) as (opj & Hp & Hdj); [lia|].
    exists opj. split; trivial. rewrite <- Hp. f_equal. lia.
Qed.

Lemma poll_reaches_done channel name0 w :
  forall k n op fuel,
    first_done w n k op ->
    (5 * S k <= fuel)%nat ->
    let r := run fuel w n (poll channel name0) in
    outcome r = Finished op /\
    count is_query (calls r) = S k /\
    exists tr, calls r = tr ++ pass channel name0 op.
Proof.
  induction k as [|k IH]; intros n op fuel Hfirst Hfuel r; subst r.
  - destruct Hfirst as (Hk & Hd & _). rewrite Nat.add_0_r in Hk.
    rewrite run_poll, run_poll_once.
    destruct fuel as [|[|[|[|fuel4]]]]; try lia.
    rewrite Hk. unfold verdict. rewrite Hd.
    destruct (nonempty (message (error op))); unfold and_then; cbn [outcome calls];
      rewrite app_nil_r, count_pass_queries; (repeat split; trivial);
      exists []; reflexivity.
  - destruct (proj2 (proj2 Hfirst) 0%nat) as (op0 & Hp0 & Hd0); [lia|].
    rewrite Nat.add_0_r in Hp0.
    apply first_done_next in Hfirst.
    rewrite run_poll, run_poll_once.
    destruct fuel as [|[|[|[|[|fuel5]]]]]; try lia.
    rewrite Hp0. unfold verdict. rewrite Hd0.
    destruct (nonempty (message (error op0))); unfold and_then;
      cbn [outcome calls fuel_left asked].
    + destruct (IH (S n) op fuel5 Hfirst) as (Ho & Hc & tr & Htr); [lia|].
      rewrite Ho, count_app, count_pass_queries, Hc. repeat split; trivial.
      exists (pass channel name0 op0 ++ tr). rewrite Htr, app_assoc. reflexivity.
    + destruct (IH (S n) op (S fuel5) Hfirst) as (Ho & Hc & tr & Htr); [lia|].
      rewrite Ho, count_app, count_pass_queries, Hc. repeat split; trivial.
      exists (pass channel name0 op0 ++ tr). rewrite Htr, app_assoc. reflexivity.
Qed.

Lemma poll_trace_first_done channel name0 w n tr o :
  poll_trace channel name0 w n tr o ->
  forall k op, first_done w n k op ->
    (o = Running /\ (count is_query tr <= S k)%nat) \/
    (o = Finished op /\ count is_query tr = S k).
Proof.
  induction 1 as [n|n|n|n op0 Hp|n x Hp|n op0 Hp Hd|n op0 tr o Hp Hd Htr IH];
    intros k op Hfirst.
  - left. split; [reflexivity|cbn; lia].
  - left. split; [reflexivity|cbn; lia].
  - left. split; [reflexivity|cbn; lia].
  - left. split; [reflexivity|cbn; lia].
  - exfalso. destruct k as [|k].
    + destruct Hfirst as (Hk & _). rewrite Nat.add_0_r in Hk. congruence.
    + destruct (proj2 (proj2 Hfirst) 0%nat) as (opj & Hj & _); [lia|].
      rewrite Nat.add_0_r in Hj. congruence.
  - right. rewrite count_pass_queries. destruct k as [|k].
    + destruct Hfirst as (Hk & _). rewrite Nat.add_0_r in Hk.
      split; congruence.
    + exfalso. destruct (proj2 (proj2 Hfirst) 0%nat) as (opj & Hj & Hdj); [lia|].
      rewrite Nat.add_0_r in Hj. congruence.
  - rewrite count_app, count_pass_queries. destruct k as [|k].
    + exfalso. destruct Hfirst as (Hk & Hdk & _). rewrite Nat.add_0_r in Hk.
      congruence.
    + apply first_done_next in Hfirst.
      destruct (IH k op Hfirst) as [(Ho & Hc)|(Ho & Hc)]; [left|right];
        split; trivial; lia.
Qed.

Lemma poll_trace_queries_bound channel name0 w n tr o :
  poll_trace channel name0 w n tr o ->
  forall k op, (n <= k)%nat -> polled w k = Ok op -> done op = true ->
    (count is_query tr <= S k - n)%nat.
Proof.
  induction 1 as [n|n|n|n op0 Hp|n x Hp|n op0 Hp Hd|n op0 tr o Hp Hd Htr IH];
    intros k op Hle Hk Hdk.
  1-5: cbn -[Nat.sub]; lia.
  - rewrite count_pass_queries. lia.
  - rewrite count_app, count_pass_queries.
    assert (n <> k) by (intros ->; congruence).
    specialize (IH k op ltac:(lia) Hk Hdk). lia.
Qed.

Lemma poll_once_goes_round channel name0 w n op fuel op' :
  polled w n = Ok op -> done op = false ->
  outcome (run fuel w n (poll_once channel name0 tt)) <> Finished (inr op').
Proof.
  intros Hp Hd. rewrite run_poll_once.
  destruct fuel as [|[|[|fuel3]]]; try discriminate.
  rewrite Hp. unfold verdict. rewrite Hd.
  destruct (nonempty (message (error op))); [destruct fuel3|]; discriminate.
Qed.

(** ** Claims about when the loop stops *)

(** C1. The loop exits in the pass in which a handle with [done] set is
    first returned: with the first such answer the [k]-th (from 0), every
    long enough execution of the loop returns that handle after exactly
    [k + 1] queries, and no execution returns anything else or after another
    number of queries.  A handle with [done] not set never ends the loop,
    whatever its error message: the pass that received it goes round again. *)
Theorem poll_exits_on_first_done channel name0 w k op :
  first_done w 0 k op ->
  (forall fuel, (5 * S k <= fuel)%nat ->
     outcome (run fuel w 0 (poll channel name0)) = Finished op /\
     count is_query (calls (run fuel w 0 (poll channel name0))) = S k) /\
  (forall fuel,
     (outcome (run fuel w 0 (poll channel name0)) = Running /\
      (count is_query (calls (run fuel w 0 (poll channel name0))) <= S k)%nat) \/
     (outcome (run fuel w 0 (poll channel name0)) = Finished op /\
      count is_query (calls (run fuel w 0 (poll channel name0))) = S k)) /\
  (forall fuel n opn op',
     polled w n = Ok opn -> done opn = false ->
     outcome (run fuel w n (poll_once channel name0 tt)) <> Finished (inr op')).
Proof.
  intros Hfirst. split; [|split].
  - intros fuel Hfuel.
    destruct (poll_reaches_done channel name0 w k 0 op fuel Hfirst Hfuel) as (Ho & Hc & _).
    split; assumption.
  - intros fuel.
    exact (poll_trace_first_done channel name0 w 0 _ _
             (poll_trace_run channel name0 w fuel 0) k op Hfirst).
  - intros fuel n opn op' Hp Hd. now apply poll_once_goes_round with (op := opn).
Qed.

Lemma demo_first_done : first_done demo_world 0 2 op_renamed_done.
Proof.
  repeat split.
  intros j Hj. destruct j as [|[|j]]; [| |exfalso; lia]; eexists; split; reflexivity.
Defined.

Lemma poll_exits_on_first_done_witness :
  first_done demo_world 0 2 op_renamed_done /\
  outcome (run 15 demo_world 0 (poll demo_channel "operations/42")) = Finished op_renamed_done /\
  count is_query (calls (run 15 demo_world 0 (poll demo_channel "operations/42"))) = 3%nat.
Proof.
  split; [exact demo_first_done|].
  apply (poll_exits_on_first_done demo_channel "operations/42" demo_world 2
           op_renamed_done demo_first_done).
  cbn. lia.
Defined.

(** C2. Once the service has answered a query with [done] set, no later
    query is issued: if the [k]-th answer (from 0) has [done] set, no
    execution of the loop, and no execution of [main], issues more than
    [k + 1] queries. *)
Theorem no_query_after_done input_uri encoding0 sample_rate0 language_code0 w k op :
  polled w k = Ok op -> done op = true ->
  (forall channel name0 fuel,
     (count is_query (calls (run fuel w 0 (poll channel name0))) <= S k)%nat) /\
  (forall fuel,
     (count is_query
        (calls (run fuel w 0 (main input_uri encoding0 sample_rate0 language_code0)))
      <= S k)%nat).
Proof.
  intros Hk Hd. split.
  - intros channel name0 fuel.
    pose proof (poll_trace_queries_bound channel name0 w 0 _ _
                  (poll_trace_run channel name0 w fuel 0) k op (Nat.le_0_l k) Hk Hd).
    lia.
  - intros fuel.
    destruct (main_shape input_uri encoding0 sample_rate0 language_code0 w fuel)
      as (pre & ptr & post & -> & Hpre & Hpost & Hptr).
    rewrite !count_app.
    rewrite (count_none is_query pre), (count_none is_query post).
    + destruct Hptr as [->|(token & channel & op0 & o & _ & _ & _ & _ & Hpoll)].
      * cbn. lia.
      * pose proof (poll_trace_queries_bound _ _ _ _ _ _ Hpoll k op (Nat.le_0_l k) Hk Hd).
        lia.
    + eapply Forall_impl; [|exact Hpost]. apply report_call_not_query.
    + eapply Forall_impl; [|exact Hpre]. apply startup_call_not_query.
Qed.

Lemma no_query_after_done_witness :
  (count is_query
     (calls (run 100 demo_world 0 (main "gs://bucket/file.flac" "FLAC" 16000 "en-US")))
   <= 3)%nat.
Proof.
  apply (no_query_after_done "gs://bucket/file.flac" "FLAC" 16000 "en-US"
           demo_world 2 op_renamed_done eq_refl eq_refl).
Defined.

(** ** The calls of the loop *)

Lemma poll_call_pass channel name0 op :
  Forall (poll_call channel name0) (pass channel name0 op).
Proof.
  unfold pass, warning, query.
  destruct (nonempty (message (error op))) eqn:Hm; repeat constructor; exact Hm.
Qed.

Lemma poll_trace_calls channel name0 w n tr o :
  poll_trace channel name0 w n tr o -> Forall (poll_call channel name0) tr.
Proof.
  induction 1; try (unfold query; repeat constructor; fail).
  - apply poll_call_pass.
  - apply Forall_app. split; [apply poll_call_pass|assumption].
Qed.

Lemma slept_app a b :
  slept_before_each_query a -> slept_before_each_query b ->
  slept_before_each_query (a ++ b).
Proof.
  intros Ha Hb pre c post Heq Hq.
  apply app_eq_app in Heq. destruct Heq as (l & [(-> & Hl)|(-> & Hl)]).
  - destruct l as [|c' l].
    + cbn in Hl. symmetry in Hl.
      destruct (Hb [] c post Hl Hq) as (pre' & Hpre).
      destruct pre'; discriminate.
    + cbn in Hl. injection Hl as <- ->.
      apply (Ha pre c l eq_refl Hq).
  - destruct (Hb l c post Hl Hq) as (pre' & ->).
    exists (a ++ pre'). now rewrite app_assoc.
Qed.

Lemma slept_no_query tr :
  Forall (fun c => is_query c = false) tr -> slept_before_each_query tr.
Proof.
  intros Hall pre c post -> Hq. exfalso.
  rewrite Forall_forall in Hall. specialize (Hall c (in_elt c pre post)). congruence.
Qed.

Lemma slept_cut channel name0 tr :
  (exists rest, [Print OutWaiting; Sleep 1; query channel name0] = tr ++ rest) ->
  slept_before_each_query tr.
Proof.
  intros (rest & Heq) pre c post -> Hq.
  destruct pre as [|a [|b [|d pre]]]; cbn in Heq.
  - injection Heq as <- _. discriminate.
  - injection Heq as _ <- _. discriminate.
  - injection Heq as <- <- _ _. exists [Print OutWaiting]. reflexivity.
  - injection Heq as _ _ _ Heq. destruct pre; discriminate.
Qed.

Lemma slept_pass channel name0 op :
  slept_before_each_query (pass channel name0 op).
Proof.
  unfold pass. apply slept_app.
  - apply (slept_cut channel name0). exists []. reflexivity.
  - apply slept_no_query. unfold warning.
    destruct (nonempty (message (error op))); repeat constructor.
Qed.

Lemma slept_poll_trace channel name0 w n tr o :
  poll_trace channel name0 w n tr o -> slept_before_each_query tr.
Proof.
  induction 1.
  - apply slept_no_query. constructor.
  - apply (slept_cut channel name0). now exists [Sleep 1; query channel name0].
  - apply (slept_cut channel name0). now exists [query channel name0].
  - apply (slept_cut channel name0). now exists [].
  - apply (slept_cut channel name0). now exists [].
  - apply slept_pass.
  - apply slept_app; [apply slept_pass|assumption].
Qed.

(** ** Claims about the calls of the loop *)

(** C4. Before every query, the first one after submission included, the
    loop sleeps one second: in every execution of [main], each
    [GetOperation] call comes directly after a [Sleep 1] call. *)
Theorem sleep_before_every_query input_uri encoding0 sample_rate0 language_code0 w fuel :
  forall pre c post,
    calls (run fuel w 0 (main input_uri encoding0 sample_rate0 language_code0))
      = pre ++ c :: post ->
    is_query c = true ->
    exists pre', pre = pre' ++ [Sleep 1].
Proof.
  destruct (main_shape input_uri encoding0 sample_rate0 language_code0 w fuel)
    as (pre0 & ptr & post0 & -> & Hpre & Hpost & Hptr).
  change (slept_before_each_query (pre0 ++ ptr ++ post0)).
  apply slept_app; [|apply slept_app].
  - apply slept_no_query. eapply Forall_impl; [|exact Hpre].
    apply startup_call_not_query.
  - destruct Hptr as [->|(token & channel & op0 & o & _ & _ & _ & _ & Hpoll)].
    + apply slept_no_query. constructor.
    + eapply slept_poll_trace. exact Hpoll.
  - apply slept_no_query. eapply Forall_impl; [|exact Hpost].
    apply report_call_not_query.
Qed.

Lemma sleep_before_every_query_witness :
  exists pre',
    startup "token" demo_channel (request "gs://bucket/file.flac" "FLAC" 16000 "en-US")
      op_submitted ++ [Print OutWaiting; Sleep 1]
    = pre' ++ [Sleep 1].
Proof.
  apply (sleep_before_every_query "gs://bucket/file.flac" "FLAC" 16000 "en-US"
           demo_world 7
           (startup "token" demo_channel
              (request "gs://bucket/file.flac" "FLAC" 16000 "en-US") op_submitted
            ++ [Print OutWaiting; Sleep 1])
           (query demo_channel "operations/42")
           []).
  - vm_compute. reflexivity.
  - reflexivity.
Defined.

(** C8. Every query carries the operation name of the submission reply,
    read once before the loop, whatever names the polled handles carry: in
    every execution of [main], a [GetOperation] call is made only after
    start-up has succeeded, on the channel it opened and with the name of
    the handle the submission returned. *)
Theorem queries_use_submitted_name input_uri encoding0 sample_rate0 language_code0 w fuel c :
  In c (calls (run fuel w 0 (main input_uri encoding0 sample_rate0 language_code0))) ->
  is_query c = true ->
  exists channel op0,
    channel_reply w = Ok channel /\
    submitted w (request input_uri encoding0 sample_rate0 language_code0) = Ok op0 /\
    c = GetOperation channel (mkGetOperationRequest (name op0)) DEADLINE_SECS.
Proof.
  intros Hin Hq.
  destruct (main_shape input_uri encoding0 sample_rate0 language_code0 w fuel)
    as (pre & ptr & post & Heq & Hpre & Hpost & Hptr).
  rewrite Heq in Hin. rewrite !in_app_iff in Hin.
  rewrite Forall_forall in Hpre, Hpost.
  destruct Hin as [Hin|[Hin|Hin]].
  - apply Hpre, startup_call_not_query in Hin. congruence.
  - destruct Hptr as [->|(token & channel & op0 & o & _ & Hc & Hs & _ & Hpoll)];
      [contradiction|].
    exists channel, op0. split; [assumption|]. split; [assumption|].
    apply poll_trace_calls in Hpoll. rewrite Forall_forall in Hpoll.
    specialize (Hpoll c Hin). destruct c; try discriminate.
    cbn in Hpoll. destruct Hpoll as (-> & -> & ->). reflexivity.
  - apply Hpost, report_call_not_query in Hin. congruence.
Qed.

Lemma queries_use_submitted_name_witness :
  exists channel op0,
    channel_reply renaming_world = Ok channel /\
    submitted renaming_world (request "gs://bucket/file.flac" "FLAC" 16000 "en-US") = Ok op0 /\
    GetOperation demo_channel (mkGetOperationRequest "operations/42") 10
    = GetOperation channel (mkGetOperationRequest (name op0)) DEADLINE_SECS.
Proof.
  apply (queries_use_submitted_name "gs://bucket/file.flac" "FLAC" 16000 "en-US"
           renaming_world 100).
  - vm_compute. do 9 right. left. reflexivity.
  - reflexivity.
Defined.

(** ** Claims about entering the loop *)

Lemma poll_starts channel name0 w n fuel :
  (3 <= fuel)%nat ->
  exists rest,
    calls (run fuel w n (poll channel name0))
    = [Print OutWaiting; Sleep 1; query channel name0] ++ rest.
Proof.
  intros Hfuel. rewrite run_poll, run_poll_once.
  destruct fuel as [|[|[|fuel3]]]; try lia.
  destruct (polled w n) as [op|x].
  - destruct (nonempty (message (error op))); [destruct fuel3|];
      unfold and_then, pass; cbn [outcome calls]; rewrite <- ?app_assoc;
      eexists; reflexivity.
  - unfold and_then; cbn [outcome calls]. exists []. reflexivity.
Qed.

(** C9. The [done] field of the handle returned by the submission is never
    looked at: whenever start-up succeeds (the token, the channel, the
    request and the submission), whatever that handle says, the execution
    goes on with the waiting line, a one-second sleep and a [GetOperation]
    query. *)
Theorem first_poll_unconditional input_uri encoding0 sample_rate0 language_code0
  w token channel op0 fuel :
  access_token_reply w = Ok token ->
  channel_reply w = Ok channel ->
  in_int32 sample_rate0 = true ->
  submitted w (request input_uri encoding0 sample_rate0 language_code0) = Ok op0 ->
  (7 <= fuel)%nat ->
  exists rest,
    calls (run fuel w 0 (main input_uri encoding0 sample_rate0 language_code0))
    = startup token channel (request input_uri encoding0 sample_rate0 language_code0) op0
      ++ [Print OutWaiting; Sleep 1;
          GetOperation channel (mkGetOperationRequest (name op0)) DEADLINE_SECS]
      ++ rest.
Proof.
  intros Ht Hc Hrange Hs Hfuel.
  destruct fuel as [|[|[|[|f4]]]]; try lia.
  unfold main, make_channel.
  repeat run_step. rewrite Ht. repeat run_step. rewrite Hc. repeat run_step.
  rewrite Hrange. repeat run_step.
  fold (request input_uri encoding0 sample_rate0 language_code0).
  rewrite Hs. repeat run_step.
  destruct (poll_starts channel (name op0) w 0 f4) as (rest & Hrest); [lia|].
  destruct (outcome (run f4 w 0 (poll channel (name op0)))); cbn [calls];
    rewrite Hrest; unfold startup; cbn [app]; rewrite <- ?app_assoc; cbn [app];
    eexists; reflexivity.
Qed.

Lemma first_poll_unconditional_witness :
  done op_renamed_done = true /\
  exists rest,
    calls (run 7 eager_world 0 (main "gs://bucket/file.flac" "FLAC" 16000 "en-US"))
    = startup "token" demo_channel
        (request "gs://bucket/file.flac" "FLAC" 16000 "en-US") op_renamed_done
      ++ [Print OutWaiting; Sleep 1;
          GetOperation demo_channel (mkGetOperationRequest "operations/other") DEADLINE_SECS]
      ++ rest.
Proof.
  split; [reflexivity|].
  apply (first_poll_unconditional "gs://bucket/file.flac" "FLAC" 16000 "en-US"
           eager_world "token" demo_channel op_renamed_done 7);
    [reflexivity|reflexivity|reflexivity|reflexivity|lia].
Defined.

(** C10. In a pass the warning is printed exactly when the message of the
    polled handle's error is not empty, and what is printed is that error;
    an error with an empty message prints nothing, whatever else it holds. *)
Theorem warning_iff_message channel name0 w n op fuel :
  polled w n = Ok op ->
  (4 <= fuel)%nat ->
  calls (run fuel w n (poll_once channel name0 tt))
  = [Print OutWaiting; Sleep 1;
     GetOperation channel (mkGetOperationRequest name0) DEADLINE_SECS]
    ++ (if nonempty (message (error op))
        then [Print (OutOperationError (error op))]
        else []) /\
  ((exists e, In (Print (OutOperationError e))
                (calls (run fuel w n (poll_once channel name0 tt))))
   <-> message (error op) <> "").
Proof.
  intros Hp Hfuel. rewrite run_poll_once.
  destruct fuel as [|[|[|[|fuel4]]]]; try lia.
  rewrite Hp. unfold pass, warning, query.
  destruct (message (error op)) as [|a m] eqn:Hm; cbn [nonempty calls app].
  - split; [reflexivity|]. split.
    + intros (e & [H|[H|[H|[]]]]); discriminate.
    + intros H. now contradiction H.
  - split; [reflexivity|]. split; [discriminate|].
    intros _. exists (error op). cbn. auto.
Qed.

Lemma warning_iff_message_witness :
  calls (run 4 code_only_world 0 (poll_once demo_channel "operations/42" tt))
  = [Print OutWaiting; Sleep 1;
     GetOperation demo_channel (mkGetOperationRequest "operations/42") DEADLINE_SECS].
Proof.
  apply (warning_iff_message demo_channel "operations/42"
           code_only_world 0 op_code_only 4 eq_refl).
  lia.
Defined.

(** ** Claims about a service that never reports done *)

Lemma count_pass_sleeps channel name0 op :
  count is_sleep (pass channel name0 op) = 1%nat.
Proof.
  unfold pass, warning. destruct (nonempty (message (error op))); reflexivity.
Qed.

Lemma poll_trace_never_done channel name0 w n tr o :
  poll_trace channel name0 w n tr o -> never_done w -> o = Running.
Proof.
  induction 1 as [n|n|n|n op0 Hp|n x Hp|n op0 Hp Hd|n op0 tr o Hp Hd Htr IH];
    intros Hnever; trivial.
  - destruct (Hnever n) as (op & Hop & _). congruence.
  - destruct (Hnever n) as (op & Hop & Hdone). congruence.
  - now apply IH.
Qed.

Lemma poll_keeps_querying channel name0 w :
  never_done w ->
  forall N fuel n, (5 * N <= fuel)%nat ->
    (N <= count is_query (calls (run fuel w n (poll channel name0))))%nat /\
    (N <= count is_sleep (calls (run fuel w n (poll channel name0))))%nat.
Proof.
  intros Hnever. induction N as [|N IH]; intros fuel n Hfuel; [split; lia|].
  destruct (Hnever n) as (op & Hop & Hdone).
  rewrite run_poll, run_poll_once.
  destruct fuel as [|[|[|[|[|fuel5]]]]]; try lia.
  rewrite Hop. unfold verdict. rewrite Hdone.
  destruct (nonempty (message (error op))); unfold and_then;
    cbn [outcome calls fuel_left asked];
    rewrite !count_app, count_pass_queries, count_pass_sleeps.
  - destruct (IH fuel5 (S n)) as (Hq & Hs); [lia|]. split; lia.
  - destruct (IH (S fuel5) (S n)) as (Hq & Hs); [lia|]. split; lia.
Qed.

Lemma deadline_startup_call req c : startup_call req c -> deadline_bounded c.
Proof.
  destruct c; cbn; intros H; try exact I; try contradiction.
  destruct H as (_ & ->). reflexivity.
Qed.

Lemma deadline_poll_call channel name0 c : poll_call channel name0 c -> deadline_bounded c.
Proof.
  destruct c as [| | |ch req d| |o| |]; cbn; intros H; try exact I; try contradiction.
  destruct H as (_ & _ & ->). reflexivity.
Qed.

Lemma deadline_report_call c : report_call c -> deadline_bounded c.
Proof. destruct c; cbn; intros H; try exact I; contradiction. Qed.

Lemma deadline_main input_uri encoding0 sample_rate0 language_code0 w fuel :
  Forall deadline_bounded
    (calls (run fuel w 0 (main input_uri encoding0 sample_rate0 language_code0))).
Proof.
  destruct (main_shape input_uri encoding0 sample_rate0 language_code0 w fuel)
    as (pre & ptr & post & -> & Hpre & Hpost & Hptr).
  apply Forall_app; split; [|apply Forall_app; split].
  - eapply Forall_impl; [|exact Hpre]. apply deadline_startup_call.
  - destruct Hptr as [->|(token & channel & op0 & o & _ & _ & _ & _ & Hpoll)];
      [constructor|].
    apply poll_trace_calls in Hpoll.
    eapply Forall_impl; [|exact Hpoll]. apply deadline_poll_call.
  - eapply Forall_impl; [|exact Hpost]. apply deadline_report_call.
Qed.

(** C5. When the service never answers with [done] set, the loop never
    ends: no execution of the loop, however long, returns, and neither does
    [main]; the queries issued and the seconds slept grow beyond every
    bound.  Every RPC that is issued, the submission and each query,
    carries the ten-second deadline. *)
Theorem poll_unbounded_when_never_done w :
  never_done w ->
  (forall channel name0 fuel,
     outcome (run fuel w 0 (poll channel name0)) = Running) /\
  (forall input_uri encoding0 sample_rate0 language_code0 fuel u,
     outcome (run fuel w 0 (main input_uri encoding0 sample_rate0 language_code0))
     <> Finished u) /\
  (forall channel name0 N,
     exists fuel,
       (N <= count is_query (calls (run fuel w 0 (poll channel name0))))%nat /\
       (N <= count is_sleep (calls (run fuel w 0 (poll channel name0))))%nat) /\
  (forall input_uri encoding0 sample_rate0 language_code0 fuel,
     Forall deadline_bounded
       (calls (run fuel w 0 (main input_uri encoding0 sample_rate0 language_code0)))) /\
  DEADLINE_SECS = 10.
Proof.
  intros Hnever. split; [|split; [|split; [|split]]].
  - intros channel name0 fuel.
    exact (poll_trace_never_done channel name0 w 0 _ _
             (poll_trace_run channel name0 w fuel 0) Hnever).
  - intros input_uri encoding0 sample_rate0 language_code0 fuel u Hfin.
    apply main_finished_poll_finished in Hfin.
    destruct Hfin as (channel & op0 & fuel' & operation & Hfin).
    rewrite (poll_trace_never_done channel (name op0) w 0 _ _
               (poll_trace_run channel (name op0) w fuel' 0) Hnever) in Hfin.
    discriminate.
  - intros channel name0 N. exists (5 * N)%nat.
    apply (poll_keeps_querying channel name0 w Hnever N (5 * N) 0). lia.
  - intros. apply deadline_main.
  - reflexivity.
Qed.

Lemma stalled_never_done : never_done stalled_world.
Proof. intros n. exists op_pending. split; reflexivity. Defined.

Lemma poll_unbounded_when_never_done_witness :
  never_done stalled_world /\
  outcome (run 1000 stalled_world 0 (poll demo_channel "operations/42")) = Running.
Proof.
  split; [exact stalled_never_done|].
  apply (poll_unbounded_when_never_done stalled_world stalled_never_done).
Defined.

(** ** Claims about the command line *)

Lemma run_parser_error e w fuel :
  run (S fuel) w 0 (call (ParserError e) ;; Ret tt)
  = mkRun [ParserError e] 0 fuel (Raised (SystemExit 2)).
Proof. repeat run_step. reflexivity. Qed.

Lemma script_rejected py_int argv e w fuel :
  parse_args py_int argv = inl e ->
  Forall (fun c => is_network c = false) (calls (run fuel w 0 (script py_int argv))) /\
  ((0 < fuel)%nat ->
   calls (run fuel w 0 (script py_int argv)) = [ParserError e] /\
   outcome (run fuel w 0 (script py_int argv)) = Raised (SystemExit 2) /\
   exit_status (outcome (run fuel w 0 (script py_int argv))) = Some 2).
Proof.
  intros Hparse. unfold script. rewrite Hparse.
  destruct fuel as [|fuel].
  - split; [|lia]. repeat run_step. constructor.
  - rewrite run_parser_error. cbn [calls outcome exit_status].
    split; [repeat constructor|]. intros _. repeat split.
Qed.

(** C3. An [input_uri] that does not start with [gs://] is rejected with a
    usage error before any network call: the only call made is the parser's
    error report, and the process leaves with status 2. *)
Theorem bad_uri_rejected_before_network py_int argv w fuel :
  String.prefix "gs://" (arg_input_uri argv) = false ->
  parse_args py_int argv = inl (ArgumentTypeError "input_uri" GCS_URI_MESSAGE) /\
  Forall (fun c => is_network c = false) (calls (run fuel w 0 (script py_int argv))) /\
  ((0 < fuel)%nat ->
   calls (run fuel w 0 (script py_int argv))
   = [ParserError (ArgumentTypeError "input_uri" GCS_URI_MESSAGE)] /\
   outcome (run fuel w 0 (script py_int argv)) = Raised (SystemExit 2) /\
   exit_status (outcome (run fuel w 0 (script py_int argv))) = Some 2 /\
   2 <> 0).
Proof.
  intros Hprefix.
  assert (Hparse : parse_args py_int argv = inl (ArgumentTypeError "input_uri" GCS_URI_MESSAGE)).
  { unfold parse_args, _gcs_uri. rewrite Hprefix. reflexivity. }
  split; [exact Hparse|].
  destruct (script_rejected py_int argv _ w fuel Hparse) as (Hnet & Hexit).
  split; [exact Hnet|].
  intros Hfuel. destruct (Hexit Hfuel) as (Hc & Ho & Hs).
  repeat split; trivial. discriminate.
Qed.

Lemma bad_uri_rejected_before_network_witness :
  String.prefix "gs://" "not-a-gcs-path" = false /\
  calls (run 100 demo_world 0 (script ascii_int (mkCommandLine "not-a-gcs-path" None None)))
  = [ParserError (ArgumentTypeError "input_uri" GCS_URI_MESSAGE)] /\
  exit_status (outcome (run 100 demo_world 0 (script ascii_int (mkCommandLine "not-a-gcs-path" None None))))
  = Some 2.
Proof.
  split; [reflexivity|].
  destruct (bad_uri_rejected_before_network ascii_int
              (mkCommandLine "not-a-gcs-path" None None) demo_world 100 eq_refl)
    as (_ & _ & H).
  destruct H as (Hc & _ & Hs & _); [lia|].
  split; assumption.
Defined.

Lemma choice_accepted text :
  In text ENCODING_CHOICES -> existsb (String.eqb text) ENCODING_CHOICES = true.
Proof.
  intros Hin. apply existsb_exists. exists text. split; [exact Hin|].
  apply String.eqb_refl.
Qed.


Lemma submissions_of_main input_uri encoding0 sample_rate0 language_code0 w fuel ch req d :
  In (AsyncRecognize ch req d)
     (calls (run fuel w 0 (main input_uri encoding0 sample_rate0 language_code0))) ->
  req = request input_uri encoding0 sample_rate0 language_code0 /\ d = DEADLINE_SECS.
Proof.
  intros Hin.
  destruct (main_shape input_uri encoding0 sample_rate0 language_code0 w fuel)
    as (pre & ptr & post & Heq & Hpre & Hpost & Hptr).
  rewrite Heq in Hin. rewrite !in_app_iff in Hin.
  rewrite Forall_forall in Hpre, Hpost.
  destruct Hin as [Hin|[Hin|Hin]].
  - exact (Hpre _ Hin).
  - destruct Hptr as [->|(token & channel & op0 & o & _ & _ & _ & _ & Hpoll)];
      [contradiction|].
    apply poll_trace_calls in Hpoll. rewrite Forall_forall in Hpoll.
    destruct (Hpoll _ Hin).
  - destruct (Hpost _ Hin).
Qed.

Lemma main_submits input_uri encoding0 sample_rate0 language_code0 w token channel fuel :
  access_token_reply w = Ok token ->
  channel_reply w = Ok channel ->
  in_int32 sample_rate0 = true ->
  (3 <= fuel)%nat ->
  nth_error (calls (run fuel w 0 (main input_uri encoding0 sample_rate0 language_code0))) 2
  = Some (AsyncRecognize channel
            (request input_uri encoding0 sample_rate0 language_code0) DEADLINE_SECS).
Proof.
  intros Ht Hc Hrange Hfuel. destruct fuel as [|[|[|f3]]]; try lia.
  unfold main, make_channel.
  repeat run_step. rewrite Ht. repeat run_step. rewrite Hc. repeat run_step.
  rewrite Hrange. repeat run_step.
  fold (request input_uri encoding0 sample_rate0 language_code0).
  destruct (submitted w _); repeat run_step; [|reflexivity].
  destruct f3; repeat run_step; [reflexivity|].
  destruct (outcome (run f3 w 0 (poll channel (name a)))); reflexivity.
Qed.

(** A sample rate outside the int32 range: the message cannot be built. *)
Lemma main_out_of_range input_uri encoding0 sample_rate0 language_code0 w token channel fuel :
  access_token_reply w = Ok token ->
  channel_reply w = Ok channel ->
  in_int32 sample_rate0 = false ->
  run (2 + fuel) w 0 (main input_uri encoding0 sample_rate0 language_code0)
  = mkRun [GetAccessToken [SPEECH_SCOPE];
           SecureChannel "speech.googleapis.com" 443
             ("Authorization", String.append "Bearer " token)]
          0 fuel (Raised (Error "ValueError")).
Proof.
  intros Ht Hc Hrange. cbn [Nat.add]. unfold main, make_channel.
  repeat run_step. rewrite Ht. repeat run_step. rewrite Hc. repeat run_step.
  rewrite Hrange. repeat run_step. reflexivity.
Qed.

Lemma main_submitted_in_range input_uri encoding0 sample_rate0 language_code0 w fuel ch req d :
  In (AsyncRecognize ch req d)
     (calls (run fuel w 0 (main input_uri encoding0 sample_rate0 language_code0))) ->
  in_int32 sample_rate0 = true.
Proof.
  destruct (in_int32 sample_rate0) eqn:Hrange; [reflexivity|].
  intros Hin. exfalso. revert Hin. unfold main, make_channel.
  destruct fuel as [|f1]; repeat run_step; [contradiction|].
  destruct (access_token_reply w) as [token|x]; repeat run_step;
    [|cbn; intuition discriminate].
  destruct f1 as [|f2]; repeat run_step; [cbn; intuition discriminate|].
  destruct (channel_reply w) as [channel|x]; repeat run_step;
    [|cbn; intuition discriminate].
  rewrite Hrange. repeat run_step. cbn. intuition discriminate.
Qed.

Lemma main_no_usage_error input_uri encoding0 sample_rate0 language_code0 w fuel :
  Forall (fun c => is_usage_error c = false)
    (calls (run fuel w 0 (main input_uri encoding0 sample_rate0 language_code0))).
Proof.
  destruct (main_shape input_uri encoding0 sample_rate0 language_code0 w fuel)
    as (pre & ptr & post & -> & Hpre & Hpost & Hptr).
  apply Forall_app; split; [|apply Forall_app; split].
  - eapply Forall_impl; [|exact Hpre].
    intros c. destruct c; cbn; intros H; try reflexivity; contradiction.
  - destruct Hptr as [->|(token & channel & op0 & o & _ & _ & _ & _ & Hpoll)];
      [constructor|].
    apply poll_trace_calls in Hpoll. eapply Forall_impl; [|exact Hpoll].
    intros c. destruct c; cbn; intros H; try reflexivity; contradiction.
  - eapply Forall_impl; [|exact Hpost].
    intros c. destruct c; cbn; intros H; try reflexivity; contradiction.
Qed.




(** C6, as the script has it.  [--sample_rate] takes whatever text [int]
    takes, positive or not; left out, it is 16000.  For such a text no
    usage error is reported, and when the value fits a signed 32-bit integer
    it is handed to the request unchanged.  A usage error is reported only
    for text that [int] refuses, and then nothing goes over the network. *)
Theorem sample_rate_any_integer py_int input_uri given_encoding :
  String.prefix "gs://" input_uri = true ->
  (forall text, given_encoding = Some text -> In text ENCODING_CHOICES) ->
  (exists ns,
     parse_args py_int (mkCommandLine input_uri given_encoding None) = inr ns /\
     ns_sample_rate ns = 16000) /\
  (forall text n,
     py_int text = Some n ->
     (exists ns,
        parse_args py_int (mkCommandLine input_uri given_encoding (Some text)) = inr ns /\
        ns_sample_rate ns = n) /\
     (forall w fuel,
        Forall (fun c => is_usage_error c = false)
          (calls (run fuel w 0
                    (script py_int (mkCommandLine input_uri given_encoding (Some text)))))) /\
     (in_int32 n = true ->
      forall w fuel token channel,
        access_token_reply w = Ok token ->
        channel_reply w = Ok channel ->
        (3 <= fuel)%nat ->
        exists req,
          nth_error
            (calls (run fuel w 0
                      (script py_int (mkCommandLine input_uri given_encoding (Some text)))))
            2
          = Some (AsyncRecognize channel req DEADLINE_SECS) /\
          sample_rate (config req) = n)) /\
  (forall text w fuel,
     py_int text = None ->
     parse_args py_int (mkCommandLine input_uri given_encoding (Some text))
     = inl (InvalidValue "--sample_rate" text) /\
     Forall (fun c => is_network c = false)
       (calls (run fuel w 0
                 (script py_int (mkCommandLine input_uri given_encoding (Some text))))) /\
     ((0 < fuel)%nat ->
      exit_status
        (outcome (run fuel w 0
                    (script py_int (mkCommandLine input_uri given_encoding (Some text)))))
      = Some 2)).
Proof.
  intros Hprefix Hchoice.
  assert (Henc : exists encoding0,
    forall rate,
      parse_args py_int (mkCommandLine input_uri given_encoding rate)
      = match
          match rate with
          | None => inr 16000
          | Some text =>
              match py_int text with
              | Some n => inr n
              | None => inl (InvalidValue "--sample_rate" text)
              end
          end
        with
        | inl e => inl e
        | inr sample_rate0 => inr (mkNamespace input_uri encoding0 sample_rate0)
        end).
  { unfold parse_args, _gcs_uri.
    cbn [arg_input_uri opt_encoding opt_sample_rate]. rewrite Hprefix. cbn [negb].
    destruct given_encoding as [text|].
    - rewrite (choice_accepted text (Hchoice text eq_refl)). eexists. reflexivity.
    - eexists. reflexivity. }
  destruct Henc as (encoding0 & Henc). split; [|split].
  - exists (mkNamespace input_uri encoding0 16000).
    split; [exact (Henc None)|reflexivity].
  - intros text n Hint.
    assert (Hparse : parse_args py_int (mkCommandLine input_uri given_encoding (Some text))
                     = inr (mkNamespace input_uri encoding0 n)).
    { rewrite Henc, Hint. reflexivity. }
    split; [|split].
    + exists (mkNamespace input_uri encoding0 n). split; [exact Hparse|reflexivity].
    + intros w fuel. unfold script. rewrite Hparse. apply main_no_usage_error.
    + intros Hrange w fuel token channel Ht Hc Hfuel.
      unfold script. rewrite Hparse. cbn [ns_input_uri ns_encoding ns_sample_rate].
      exists (request input_uri encoding0 n "en-US"). split; [|reflexivity].
      exact (main_submits input_uri encoding0 n "en-US" w token channel fuel
               Ht Hc Hrange Hfuel).
  - intros text w fuel Hint.
    assert (Hparse : parse_args py_int (mkCommandLine input_uri given_encoding (Some text))
                     = inl (InvalidValue "--sample_rate" text)).
    { rewrite Henc, Hint. reflexivity. }
    split; [exact Hparse|].
    destruct (script_rejected py_int _ _ w fuel Hparse) as (Hnet & Hexit).
    split; [exact Hnet|]. intros Hfuel. apply Hexit. exact Hfuel.
Qed.

Lemma sample_rate_any_integer_witness :
  exists req,
    nth_error
      (calls (run 100 demo_world 0
                (script ascii_int (mkCommandLine "gs://bucket/file.flac" None (Some "-5")))))
      2
    = Some (AsyncRecognize demo_channel req DEADLINE_SECS) /\
    sample_rate (config req) = -5.
Proof.
  destruct (sample_rate_any_integer ascii_int "gs://bucket/file.flac" None eq_refl)
    as (_ & Haccepted & _).
  - intros text H. discriminate H.
  - destruct (Haccepted "-5" (-5) eq_refl) as (_ & _ & Hsubmitted).
    apply (Hsubmitted eq_refl demo_world 100%nat "token" demo_channel eq_refl eq_refl).
    lia.
Defined.

(** C6, as stated, fails: [--sample_rate 0] is not a positive integer, yet
    no usage error is reported and the request is submitted with a sample
    rate of 0. *)
Lemma zero_sample_rate_is_submitted :
  ascii_int "0" = Some 0 /\
  ~ (0 < 0) /\
  parse_args ascii_int (mkCommandLine "gs://bucket/file.flac" None (Some "0"))
  = inr (mkNamespace "gs://bucket/file.flac" "LINEAR16" 0) /\
  calls (run 3 demo_world 0
           (script ascii_int (mkCommandLine "gs://bucket/file.flac" None (Some "0"))))
  = [GetAccessToken [SPEECH_SCOPE];
     SecureChannel "speech.googleapis.com" 443 ("Authorization", "Bearer token"%string);
     AsyncRecognize demo_channel
       (mkAsyncRecognizeRequest
          (mkRecognitionConfig "LINEAR16" 0 "en-US")
          (mkRecognitionAudio "gs://bucket/file.flac"))
       10] /\
  existsb is_usage_error
    (calls (run 100 demo_world 0
              (script ascii_int (mkCommandLine "gs://bucket/file.flac" None (Some "0")))))
  = false /\
  exit_status
    (outcome (run 100 demo_world 0
                (script ascii_int (mkCommandLine "gs://bucket/file.flac" None (Some "0")))))
  = Some 0.
Proof.
  split; [reflexivity|]. split; [lia|].
  split; [reflexivity|]. split; [vm_compute; reflexivity|].
  split; vm_compute; reflexivity.
Qed.

(** ** Printing the results *)

Lemma said_nil fuel n : said [] fuel n = mkRun [] n fuel (Finished tt).
Proof. unfold said. cbn. rewrite firstn_nil, Nat.sub_0_r. reflexivity. Qed.

Lemma said_app lines lines' fuel n :
  and_then (said lines fuel n) (fun _ fuel' n' => said lines' fuel' n')
  = said (lines ++ lines') fuel n.
Proof.
  unfold and_then, said. cbn [outcome calls asked fuel_left].
  rewrite firstn_app, length_app.
  destruct (Nat.leb_spec (List.length lines) fuel) as [Hle|Hlt].
  - cbn [calls asked fuel_left outcome]. f_equal.
    + lia.
    + destruct (Nat.leb_spec (List.length lines') (fuel - List.length lines));
        destruct (Nat.leb_spec (List.length lines + List.length lines') fuel);
        try reflexivity; lia.
  - cbn [calls asked fuel_left outcome].
    replace (fuel - List.length lines)%nat with 0%nat by lia.
    rewrite firstn_O.
    destruct (Nat.leb_spec (List.length lines + List.length lines') fuel); [lia|].
    rewrite app_nil_r. f_equal. lia.
Qed.

Lemma run_print o fuel w n :
  run fuel w n (call (Print o)) = said [Print o] fuel n.
Proof.
  rewrite run_call. destruct fuel as [|fuel]; [reflexivity|].
  unfold said. cbn. rewrite firstn_nil, Nat.sub_0_r. reflexivity.
Qed.

Lemma run_for_each_said {A : Type} (body : A -> itree speechE unit)
  (lines : A -> list Call) w :
  (forall x fuel n, run fuel w n (body x) = said (lines x) fuel n) ->
  forall l fuel n,
    run fuel w n (for_each l body) = said (flat_map lines l) fuel n.
Proof.
  intros Hbody. induction l as [|x l IH]; intros fuel n; cbn [for_each flat_map].
  - rewrite run_Ret, said_nil. reflexivity.
  - rewrite run_bind, Hbody, <- said_app. apply and_then_ext.
    intros _ fuel' n'. apply IH.
Qed.

Lemma flat_map_singleton {A B : Type} (f : A -> B) (l : list A) :
  flat_map (fun x => [f x]) l = map f l.
Proof. induction l as [|x l IH]; cbn; [reflexivity|]. now rewrite IH. Qed.

Lemma run_print_results response0 fuel w n :
  run fuel w n (print_results response0) = said (report_lines response0) fuel n.
Proof.
  unfold print_results, report_lines.
  apply run_for_each_said. intros result0 fuel' n'.
  rewrite run_bind, run_print. unfold result_lines.
  change (Print OutResult :: map alternative_line (alternatives result0))
    with ([Print OutResult] ++ map alternative_line (alternatives result0)).
  rewrite <- said_app. apply and_then_ext. intros _ fuel'' n''.
  rewrite <- flat_map_singleton.
  apply run_for_each_said. intros alternative fuel3 n3.
  apply run_print.
Qed.

(** ** The loop, pass by pass, with the steps counted *)

Lemma run_poll_pending channel name0 w n op fuel :
  polled w n = Ok op -> done op = false -> (pass_cost op <= fuel)%nat ->
  run fuel w n (poll channel name0) =
  mkRun (pass channel name0 op
         ++ calls (run (fuel - pass_cost op) w (S n) (poll channel name0)))
        (asked (run (fuel - pass_cost op) w (S n) (poll channel name0)))
        (fuel_left (run (fuel - pass_cost op) w (S n) (poll channel name0)))
        (outcome (run (fuel - pass_cost op) w (S n) (poll channel name0))).
Proof.
  intros Hp Hd Hfuel. rewrite run_poll, run_poll_once.
  unfold pass_cost in *.
  destruct fuel as [|[|[|[|fuel4]]]]; try (destruct (nonempty _); lia).
  rewrite Hp. unfold verdict. rewrite Hd.
  destruct (nonempty (message (error op))).
  - destruct fuel4 as [|fuel5]; [lia|].
    unfold and_then. cbn [outcome calls fuel_left asked Nat.sub].
    rewrite Nat.sub_0_r. reflexivity.
  - unfold and_then. cbn [outcome calls fuel_left asked Nat.sub].
    rewrite Nat.sub_0_r. reflexivity.
Qed.

Lemma run_poll_done channel name0 w n op fuel :
  polled w n = Ok op -> done op = true -> (pass_cost op - 1 <= fuel)%nat ->
  run fuel w n (poll channel name0) =
  mkRun (pass channel name0 op) (S n) (fuel - (pass_cost op - 1)) (Finished op).
Proof.
  intros Hp Hd Hfuel. rewrite run_poll, run_poll_once.
  unfold pass_cost in *.
  destruct fuel as [|[|[|fuel3]]]; try (destruct (nonempty _); cbn in Hfuel; lia).
  rewrite Hp. unfold verdict. rewrite Hd.
  destruct (nonempty (message (error op))).
  - destruct fuel3 as [|fuel4]; [cbn in Hfuel; lia|].
    unfold and_then. cbn [outcome calls fuel_left asked Nat.sub].
    rewrite app_nil_r, Nat.sub_0_r. reflexivity.
  - unfold and_then. cbn [outcome calls fuel_left asked Nat.sub].
    rewrite app_nil_r, Nat.sub_0_r. reflexivity.
Qed.

Lemma run_poll_raise channel name0 w n x fuel :
  polled w n = Raise x -> (3 <= fuel)%nat ->
  run fuel w n (poll channel name0) =
  mkRun [Print OutWaiting; Sleep 1; query channel name0] n (fuel - 3) (Raised x).
Proof.
  intros Hp Hfuel. rewrite run_poll, run_poll_once.
  destruct fuel as [|[|[|fuel3]]]; try lia.
  rewrite Hp. unfold and_then. cbn [outcome calls fuel_left asked Nat.sub].
  rewrite Nat.sub_0_r. reflexivity.
Qed.

Lemma answers_app w ops ops' :
  forall n,
    answers w n (ops ++ ops') <->
    answers w n ops /\ answers w (n + List.length ops) ops'.
Proof.
  induction ops as [|op ops IH]; intros n; cbn [answers app List.length].
  - rewrite Nat.add_0_r. tauto.
  - rewrite IH. replace (S n + List.length ops)%nat with (n + S (List.length ops))%nat by lia.
    tauto.
Qed.

Lemma passes_cost_app ops ops' :
  passes_cost (ops ++ ops') = (passes_cost ops + passes_cost ops')%nat.
Proof. induction ops as [|op ops IH]; cbn; [reflexivity|]. rewrite IH. lia. Qed.

Lemma passes_app channel name0 ops ops' :
  passes channel name0 (ops ++ ops')
  = passes channel name0 ops ++ passes channel name0 ops'.
Proof. unfold passes. apply flat_map_app. Qed.

Lemma run_poll_through channel name0 w ops :
  forall n fuel,
    answers w n ops -> forallb pending ops = true ->
    (passes_cost ops <= fuel)%nat ->
    run fuel w n (poll channel name0) =
    mkRun (passes channel name0 ops
           ++ calls (run (fuel - passes_cost ops) w (n + List.length ops)
                       (poll channel name0)))
          (asked (run (fuel - passes_cost ops) w (n + List.length ops)
                    (poll channel name0)))
          (fuel_left (run (fuel - passes_cost ops) w (n + List.length ops)
                        (poll channel name0)))
          (outcome (run (fuel - passes_cost ops) w (n + List.length ops)
                      (poll channel name0))).
Proof.
  induction ops as [|op ops IH]; intros n fuel Hans Hpend Hfuel.
  - cbn [passes flat_map passes_cost List.length app].
    rewrite Nat.sub_0_r, Nat.add_0_r. symmetry. apply and_then_eta.
  - cbn [answers] in Hans. destruct Hans as (Hp & Hans).
    cbn [forallb] in Hpend. apply andb_true_iff in Hpend. destruct Hpend as (Hd & Hpend).
    unfold pending in Hd. apply negb_true_iff in Hd.
    cbn [passes_cost] in Hfuel.
    rewrite (run_poll_pending channel name0 w n op fuel Hp Hd) by lia.
    rewrite (IH (S n) (fuel - pass_cost op)%nat Hans Hpend) by lia.
    cbn [calls asked fuel_left outcome passes_cost List.length].
    replace (fuel - pass_cost op - passes_cost ops)%nat
      with (fuel - (pass_cost op + passes_cost ops))%nat by lia.
    replace (S n + List.length ops)%nat with (n + S (List.length ops))%nat by lia.
    unfold passes. cbn [flat_map]. rewrite <- app_assoc. reflexivity.
Qed.

(** ** [main], stage by stage *)

Lemma run_report w operation fuel n :
  run fuel w n (report operation) =
  match fuel with
  | O => mkRun [] n O Running
  | S fuel' =>
      match unpacked w (response operation) with
      | Ok response0 =>
          mkRun (Unpack (response operation) :: firstn fuel' (report_lines response0))
                n (fuel' - List.length (report_lines response0))
                (if Nat.leb (List.length (report_lines response0)) fuel'
                 then Finished tt else Running)
      | Raise x => mkRun [Unpack (response operation)] n fuel' (Raised x)
      end
  end.
Proof.
  unfold report. rewrite run_bind, run_call.
  destruct fuel as [|fuel']; [reflexivity|].
  cbn [answer]. destruct (unpacked w (response operation)) as [response0|x];
    [|reflexivity].
  unfold and_then. cbn [outcome calls fuel_left asked queries_after is_query].
  rewrite run_print_results. reflexivity.
Qed.

Lemma run_main_started input_uri encoding0 sample_rate0 language_code0
  w token channel op0 fuel :
  access_token_reply w = Ok token ->
  channel_reply w = Ok channel ->
  in_int32 sample_rate0 = true ->
  submitted w (request input_uri encoding0 sample_rate0 language_code0) = Ok op0 ->
  run (4 + fuel) w 0 (main input_uri encoding0 sample_rate0 language_code0) =
  mkRun
    (startup token channel (request input_uri encoding0 sample_rate0 language_code0) op0
     ++ calls (and_then (run fuel w 0 (poll channel (name op0)))
                 (fun operation fuel' n' => run fuel' w n' (report operation))))
    (asked (and_then (run fuel w 0 (poll channel (name op0)))
              (fun operation fuel' n' => run fuel' w n' (report operation))))
    (fuel_left (and_then (run fuel w 0 (poll channel (name op0)))
                  (fun operation fuel' n' => run fuel' w n' (report operation))))
    (outcome (and_then (run fuel w 0 (poll channel (name op0)))
                (fun operation fuel' n' => run fuel' w n' (report operation)))).
Proof.
  intros Ht Hc Hrange Hs. cbn [Nat.add].
  unfold main, make_channel.
  repeat run_step. rewrite Ht. repeat run_step. rewrite Hc. repeat run_step.
  rewrite Hrange. repeat run_step.
  fold (request input_uri encoding0 sample_rate0 language_code0).
  rewrite Hs. repeat run_step.
  unfold report, startup, and_then.
  destruct (outcome (run fuel w 0 (poll channel (name op0)))); reflexivity.
Qed.

Lemma pass_cost_pos op : (4 <= pass_cost op)%nat.
Proof. unfold pass_cost. destruct (nonempty _); lia. Qed.

(** ** More properties of the loop *)

Lemma run_poll_exact channel name0 w ops final fuel :
  answers w 0 (ops ++ [final]) ->
  forallb pending ops = true ->
  done final = true ->
  (passes_cost (ops ++ [final]) <= fuel)%nat ->
  calls (run fuel w 0 (poll channel name0)) = passes channel name0 (ops ++ [final]) /\
  outcome (run fuel w 0 (poll channel name0)) = Finished final /\
  asked (run fuel w 0 (poll channel name0)) = S (List.length ops).
Proof.
  intros Hans Hpend Hdone Hfuel.
  apply answers_app in Hans. destruct Hans as (Hans & Hfinal).
  cbn [answers] in Hfinal. destruct Hfinal as (Hfinal & _).
  rewrite passes_cost_app in Hfuel. cbn [passes_cost] in Hfuel.
  pose proof (pass_cost_pos final) as Hpos.
  rewrite (run_poll_through channel name0 w ops 0 fuel Hans Hpend) by lia.
  rewrite (run_poll_done channel name0 w (0 + List.length ops) final _ Hfinal Hdone) by lia.
  cbn [calls outcome asked]. rewrite passes_app.
  unfold passes. cbn [flat_map]. rewrite !app_nil_r.
  repeat split.
Qed.

(** X1. The calls of a loop that ends are exactly one pass per answer, in
    the order of the answers, and the handle returned is the last answer:
    the first one with [done] set. *)
Theorem poll_calls_exact channel name0 w ops final fuel :
  answers w 0 (ops ++ [final]) ->
  forallb pending ops = true ->
  done final = true ->
  (passes_cost (ops ++ [final]) <= fuel)%nat ->
  calls (run fuel w 0 (poll channel name0)) = passes channel name0 (ops ++ [final]) /\
  outcome (run fuel w 0 (poll channel name0)) = Finished final /\
  asked (run fuel w 0 (poll channel name0)) = S (List.length ops).
Proof.
  intros Hans Hpend Hdone Hfuel.
  destruct (run_poll_exact channel name0 w ops final fuel Hans Hpend Hdone Hfuel)
    as (Hcalls & Hout & Hasked).
  split; [exact Hcalls|]. split; [exact Hout|exact Hasked].
Qed.

Lemma demo_answers : answers demo_world 0 ([op_pending; op_failing] ++ [op_renamed_done]).
Proof. cbn. repeat split. Defined.

Lemma poll_calls_exact_witness :
  calls (run 13 demo_world 0 (poll demo_channel "operations/42"))
  = passes demo_channel "operations/42" [op_pending; op_failing; op_renamed_done] /\
  outcome (run 13 demo_world 0 (poll demo_channel "operations/42"))
  = Finished op_renamed_done.
Proof.
  destruct (poll_calls_exact demo_channel "operations/42" demo_world
              [op_pending; op_failing] op_renamed_done 13
              demo_answers eq_refl eq_refl) as (Hc & Ho & _).
  - vm_compute. lia.
  - split; assumption.
Defined.

(** A query that raises ends the loop at once, with that exception: the
    passes before it are complete, the last one stops at the query. *)
Lemma poll_query_failure_is_fatal channel name0 w ops x fuel :
  answers w 0 ops ->
  forallb pending ops = true ->
  polled w (List.length ops) = Raise x ->
  (passes_cost ops + 3 <= fuel)%nat ->
  calls (run fuel w 0 (poll channel name0))
  = passes channel name0 ops ++ [Print OutWaiting; Sleep 1; query channel name0] /\
  outcome (run fuel w 0 (poll channel name0)) = Raised x.
Proof.
  intros Hans Hpend Hraise Hfuel.
  rewrite (run_poll_through channel name0 w ops 0 fuel Hans Hpend) by lia.
  rewrite (run_poll_raise channel name0 w (0 + List.length ops) x) by (trivial; lia).
  split; reflexivity.
Qed.

(** ** Whole executions of [main] *)

(** X3. A run in which nothing raises (the request can be built, so the
    sample rate fits the int32 field): start-up, one pass per answer up to the
    first handle with [done] set, the decoding of that handle's response and
    the result lines; [main] returns and the exit status is 0. *)
Theorem main_succeeds input_uri encoding0 sample_rate0 language_code0
  w token channel op0 ops final response0 fuel :
  access_token_reply w = Ok token ->
  channel_reply w = Ok channel ->
  in_int32 sample_rate0 = true ->
  submitted w (request input_uri encoding0 sample_rate0 language_code0) = Ok op0 ->
  answers w 0 (ops ++ [final]) ->
  forallb pending ops = true ->
  done final = true ->
  unpacked w (response final) = Ok response0 ->
  (4 + passes_cost (ops ++ [final]) + List.length (report_lines response0) <= fuel)%nat ->
  calls (run fuel w 0 (main input_uri encoding0 sample_rate0 language_code0))
  = startup token channel (request input_uri encoding0 sample_rate0 language_code0) op0
    ++ passes channel (name op0) (ops ++ [final])
    ++ Unpack (response final) :: report_lines response0 /\
  outcome (run fuel w 0 (main input_uri encoding0 sample_rate0 language_code0))
  = Finished tt /\
  exit_status (outcome (run fuel w 0 (main input_uri encoding0 sample_rate0 language_code0)))
  = Some 0.
Proof.
  intros Ht Hc Hrange Hs Hans Hpend Hdone Hunpack Hfuel.
  assert (Hcost : (4 <= passes_cost (ops ++ [final]))%nat).
  { rewrite passes_cost_app. cbn [passes_cost]. pose proof (pass_cost_pos final). lia. }
  destruct fuel as [|[|[|[|fuel]]]]; try lia.
  change (S (S (S (S fuel)))) with (4 + fuel)%nat.
  rewrite (run_main_started _ _ _ _ w token channel op0 fuel Ht Hc Hrange Hs).
  assert (Happ := Hans). apply answers_app in Happ. destruct Happ as (Hans' & Hfinal).
  cbn [answers] in Hfinal. destruct Hfinal as (Hfinal & _).
  rewrite passes_cost_app in *. cbn [passes_cost] in *.
  pose proof (pass_cost_pos final) as Hpos.
  rewrite (run_poll_through channel (name op0) w ops 0 fuel Hans' Hpend) by lia.
  rewrite (run_poll_done channel (name op0) w (0 + List.length ops) final _ Hfinal Hdone)
    by lia.
  unfold and_then. cbn [calls outcome asked fuel_left].
  rewrite run_report.
  destruct (fuel - passes_cost ops - (pass_cost final - 1))%nat as [|fuel'] eqn:Hleft;
    [lia|].
  rewrite Hunpack. cbn [calls outcome].
  rewrite firstn_all2 by lia.
  destruct (Nat.leb_spec (List.length (report_lines response0)) fuel') as [_|Hlt]; [|lia].
  rewrite passes_app. unfold passes. cbn [flat_map]. rewrite !app_nil_r, <- !app_assoc.
  repeat split.
Qed.

Lemma main_succeeds_witness :
  calls (run 19 demo_world 0 (main "gs://bucket/file.flac" "FLAC" 16000 "en-US"))
  = startup "token" demo_channel (request "gs://bucket/file.flac" "FLAC" 16000 "en-US")
      op_submitted
    ++ passes demo_channel "operations/42" [op_pending; op_failing; op_renamed_done]
    ++ Unpack (response op_renamed_done) :: report_lines demo_response /\
  exit_status (outcome (run 19 demo_world 0 (main "gs://bucket/file.flac" "FLAC" 16000 "en-US")))
  = Some 0.
Proof.
  destruct (main_succeeds "gs://bucket/file.flac" "FLAC" 16000 "en-US"
              demo_world "token" demo_channel op_submitted
              [op_pending; op_failing] op_renamed_done demo_response 19
              eq_refl eq_refl eq_refl eq_refl demo_answers eq_refl eq_refl eq_refl)
    as (Hc & _ & He).
  - vm_compute. lia.
  - split; assumption.
Defined.

(** X4. A query that raises is fatal: [main] stops at that query with the
    exception, nothing is decoded and no result is printed. *)
Theorem main_query_failure_is_fatal input_uri encoding0 sample_rate0 language_code0
  w token channel op0 ops x fuel :
  access_token_reply w = Ok token ->
  channel_reply w = Ok channel ->
  in_int32 sample_rate0 = true ->
  submitted w (request input_uri encoding0 sample_rate0 language_code0) = Ok op0 ->
  answers w 0 ops ->
  forallb pending ops = true ->
  polled w (List.length ops) = Raise x ->
  (4 + passes_cost ops + 3 <= fuel)%nat ->
  calls (run fuel w 0 (main input_uri encoding0 sample_rate0 language_code0))
  = startup token channel (request input_uri encoding0 sample_rate0 language_code0) op0
    ++ passes channel (name op0) ops
    ++ [Print OutWaiting; Sleep 1;
        GetOperation channel (mkGetOperationRequest (name op0)) DEADLINE_SECS] /\
  outcome (run fuel w 0 (main input_uri encoding0 sample_rate0 language_code0))
  = Raised x.
Proof.
  intros Ht Hc Hrange Hs Hans Hpend Hraise Hfuel.
  destruct fuel as [|[|[|[|fuel]]]]; try lia.
  change (S (S (S (S fuel)))) with (4 + fuel)%nat.
  rewrite (run_main_started _ _ _ _ w token channel op0 fuel Ht Hc Hrange Hs).
  destruct (poll_query_failure_is_fatal channel (name op0) w ops x fuel
              Hans Hpend Hraise) as (Hcalls & Hout); [lia|].
  unfold and_then. rewrite Hout. cbn [calls outcome]. rewrite Hcalls.
  split; reflexivity.
Qed.

Lemma main_query_failure_is_fatal_witness :
  outcome (run 11 broken_world 0 (main "gs://bucket/file.flac" "FLAC" 16000 "en-US"))
  = Raised (Error "DeadlineExceeded").
Proof.
  destruct (main_query_failure_is_fatal "gs://bucket/file.flac" "FLAC" 16000 "en-US"
              broken_world "token" demo_channel op_submitted [op_pending]
              (Error "DeadlineExceeded") 11
              eq_refl eq_refl eq_refl eq_refl (conj eq_refl I) eq_refl eq_refl)
    as (_ & Ho).
  - vm_compute. lia.
  - exact Ho.
Defined.

(** X5. A response that cannot be decoded is fatal: [main] stops at the
    [Unpack] call with the exception and prints no result. *)
Theorem main_decode_failure_is_fatal input_uri encoding0 sample_rate0 language_code0
  w token channel op0 ops final x fuel :
  access_token_reply w = Ok token ->
  channel_reply w = Ok channel ->
  in_int32 sample_rate0 = true ->
  submitted w (request input_uri encoding0 sample_rate0 language_code0) = Ok op0 ->
  answers w 0 (ops ++ [final]) ->
  forallb pending ops = true ->
  done final = true ->
  unpacked w (response final) = Raise x ->
  (4 + passes_cost (ops ++ [final]) <= fuel)%nat ->
  calls (run fuel w 0 (main input_uri encoding0 sample_rate0 language_code0))
  = startup token channel (request input_uri encoding0 sample_rate0 language_code0) op0
    ++ passes channel (name op0) (ops ++ [final])
    ++ [Unpack (response final)] /\
  outcome (run fuel w 0 (main input_uri encoding0 sample_rate0 language_code0))
  = Raised x.
Proof.
  intros Ht Hc Hrange Hs Hans Hpend Hdone Hunpack Hfuel.
  destruct fuel as [|[|[|[|fuel]]]]; try lia.
  change (S (S (S (S fuel)))) with (4 + fuel)%nat.
  rewrite (run_main_started _ _ _ _ w token channel op0 fuel Ht Hc Hrange Hs).
  apply answers_app in Hans. destruct Hans as (Hans' & Hfinal).
  cbn [answers] in Hfinal. destruct Hfinal as (Hfinal & _).
  rewrite passes_cost_app in *. cbn [passes_cost] in *.
  pose proof (pass_cost_pos final) as Hpos.
  rewrite (run_poll_through channel (name op0) w ops 0 fuel Hans' Hpend) by lia.
  rewrite (run_poll_done channel (name op0) w (0 + List.length ops) final _ Hfinal Hdone)
    by lia.
  unfold and_then. cbn [calls outcome asked fuel_left].
  rewrite run_report.
  destruct (fuel - passes_cost ops - (pass_cost final - 1))%nat as [|fuel'] eqn:Hleft;
    [lia|].
  rewrite Hunpack. cbn [calls outcome].
  rewrite passes_app. unfold passes. cbn [flat_map]. rewrite !app_nil_r, <- !app_assoc.
  split; reflexivity.
Qed.

Lemma main_decode_failure_is_fatal_witness :
  outcome (run 8 undecodable_world 0 (main "gs://bucket/file.flac" "FLAC" 16000 "en-US"))
  = Raised (Error "DecodeError").
Proof.
  destruct (main_decode_failure_is_fatal "gs://bucket/file.flac" "FLAC" 16000 "en-US"
              undecodable_world "token" demo_channel op_submitted [] op_renamed_done
              (Error "DecodeError") 8
              eq_refl eq_refl eq_refl eq_refl (conj eq_refl I) eq_refl eq_refl eq_refl)
    as (_ & Ho).
  - vm_compute. lia.
  - exact Ho.
Defined.

(** ** The anatomy of every execution of [main] *)

Lemma main_anatomy input_uri encoding0 sample_rate0 language_code0 w fuel :
  early_calls w (request input_uri encoding0 sample_rate0 language_code0)
    (calls (run fuel w 0 (main input_uri encoding0 sample_rate0 language_code0))) \/
  exists token channel op0 rest,
    access_token_reply w = Ok token /\
    channel_reply w = Ok channel /\
    submitted w (request input_uri encoding0 sample_rate0 language_code0) = Ok op0 /\
    calls (run fuel w 0 (main input_uri encoding0 sample_rate0 language_code0))
    = startup token channel (request input_uri encoding0 sample_rate0 language_code0) op0
      ++ rest /\
    started_calls w channel op0 rest.
Proof.
  set (req := request input_uri encoding0 sample_rate0 language_code0).
  destruct fuel as [|f1].
  { left. unfold main, make_channel, early_calls. repeat run_step. auto. }
  destruct (access_token_reply w) as [token|x] eqn:Ht.
  2:{ left. unfold main, make_channel, early_calls. repeat run_step.
      rewrite Ht. repeat run_step. auto. }
  destruct f1 as [|f2].
  { left. unfold main, make_channel, early_calls. repeat run_step.
    rewrite Ht. repeat run_step. auto. }
  destruct (channel_reply w) as [channel|x] eqn:Hc.
  2:{ left. unfold main, make_channel, early_calls. repeat run_step.
      rewrite Ht. repeat run_step. rewrite Hc. repeat run_step. eauto 8. }
  destruct (in_int32 sample_rate0) eqn:Hrange.
  2:{ left. unfold early_calls. change (S (S f2)) with (2 + f2)%nat.
      rewrite (main_out_of_range _ _ _ _ w token channel f2 Ht Hc Hrange).
      cbn [calls]. eauto 8. }
  destruct f2 as [|f3].
  { left. unfold main, make_channel, early_calls. repeat run_step.
    rewrite Ht. repeat run_step. rewrite Hc. repeat run_step.
    rewrite Hrange. repeat run_step. eauto 8. }
  destruct (submitted w req) as [op0|x] eqn:Hs.
  2:{ left. unfold main, make_channel, early_calls. repeat run_step.
      rewrite Ht. repeat run_step. rewrite Hc. repeat run_step.
      rewrite Hrange. repeat run_step.
      fold (request input_uri encoding0 sample_rate0 language_code0). fold req.
      rewrite Hs. repeat run_step. eauto 10. }
  destruct f3 as [|fuel].
  { left. unfold main, make_channel, early_calls. repeat run_step.
    rewrite Ht. repeat run_step. rewrite Hc. repeat run_step.
    rewrite Hrange. repeat run_step.
    fold (request input_uri encoding0 sample_rate0 language_code0). fold req.
    rewrite Hs. repeat run_step. eauto 10. }
  right. exists token, channel, op0.
  change (S (S (S (S fuel)))) with (4 + fuel)%nat.
  rewrite (run_main_started _ _ _ _ w token channel op0 fuel Ht Hc Hrange Hs).
  cbn [calls]. eexists. repeat split; try reflexivity.
  unfold started_calls, and_then.
  pose proof (poll_trace_run channel (name op0) w fuel 0) as Hpoll.
  destruct (outcome (run fuel w 0 (poll channel (name op0)))) as [operation|x|] eqn:Ho;
    cbn [calls].
  - eexists _, _, _. split; [reflexivity|]. split; [exact Hpoll|].
    right. eexists _, _, _. split; reflexivity.
  - eexists _, _, []. rewrite app_nil_r. split; [reflexivity|]. split; [exact Hpoll|].
    left. reflexivity.
  - eexists _, _, []. rewrite app_nil_r. split; [reflexivity|]. split; [exact Hpoll|].
    left. reflexivity.
Qed.

Lemma In_firstn {A : Type} (x : A) n (l : list A) : In x (firstn n l) -> In x l.
Proof.
  intros Hin. rewrite <- (firstn_skipn n l). apply in_or_app. now left.
Qed.

Lemma poll_trace_finished channel name0 w n tr o :
  poll_trace channel name0 w n tr o ->
  forall operation, o = Finished operation ->
    done operation = true /\ exists k, polled w (n + k) = Ok operation.
Proof.
  induction 1 as [n|n|n|n op0 Hp|n x Hp|n op0 Hp Hd|n op0 tr o Hp Hd Htr IH];
    intros operation Ho; try discriminate.
  - injection Ho as <-. split; [assumption|]. exists 0%nat. now rewrite Nat.add_0_r.
  - destruct (IH operation Ho) as (Hdone & k & Hk). split; [assumption|].
    exists (S k). rewrite <- Hk. f_equal. lia.
Qed.

Lemma report_calls w operation fuel n c :
  In c (calls (run fuel w n (report operation))) ->
  c = Unpack (response operation) \/
  exists response0,
    unpacked w (response operation) = Ok response0 /\ In c (report_lines response0).
Proof.
  rewrite run_report. destruct fuel as [|fuel']; [contradiction|].
  destruct (unpacked w (response operation)) as [response0|x]; cbn [calls In].
  - intros [<-|Hin]; [now left|]. right. exists response0. split; [reflexivity|].
    eapply In_firstn. exact Hin.
  - intros [<-|[]]. now left.
Qed.

Lemma report_calls_are_report_calls w operation fuel n :
  Forall report_call (calls (run fuel w n (report operation))).
Proof. unfold report. apply report_after_poll. Qed.

(** ** What [main] never does *)

(** X9. Only the response of a handle that the service returned with [done] set
    is ever decoded. *)
Theorem unpack_only_when_done input_uri encoding0 sample_rate0 language_code0 w fuel a :
  In (Unpack a)
     (calls (run fuel w 0 (main input_uri encoding0 sample_rate0 language_code0))) ->
  exists k operation,
    polled w k = Ok operation /\ done operation = true /\ a = response operation.
Proof.
  intros Hin.
  destruct (main_anatomy input_uri encoding0 sample_rate0 language_code0 w fuel)
    as [Hearly|(token & channel & op0 & rest & _ & _ & _ & Heq & Hstarted)].
  - exfalso. destruct Hearly as [H|[H|[(token & _ & H)|(token & channel & _ & _ & H)]]];
      rewrite H in Hin; cbn in Hin; intuition discriminate.
  - rewrite Heq in Hin. apply in_app_or in Hin. destruct Hin as [Hin|Hin].
    { exfalso. cbn in Hin. intuition discriminate. }
    destruct Hstarted as (ptr & o & post & -> & Hpoll & Hpost).
    apply in_app_or in Hin. destruct Hin as [Hin|Hin].
    { exfalso. apply poll_trace_calls in Hpoll. rewrite Forall_forall in Hpoll.
      exact (Hpoll _ Hin). }
    destruct Hpost as [->|(operation & fuel' & n' & -> & ->)]; [contradiction|].
    destruct (poll_trace_finished _ _ _ _ _ _ Hpoll operation eq_refl) as (Hdone & k & Hk).
    exists k, operation. split; [exact Hk|]. split; [exact Hdone|].
    apply report_calls in Hin. destruct Hin as [Hin|(response0 & _ & Hin)].
    + now injection Hin.
    + exfalso. unfold report_lines in Hin. apply in_flat_map in Hin.
      destruct Hin as (result0 & _ & [Hin|Hin]); [discriminate|].
      apply in_map_iff in Hin. destruct Hin as (alternative & Hin & _). discriminate.
Qed.

Lemma unpack_only_when_done_witness :
  exists k operation,
    polled demo_world k = Ok operation /\ done operation = true /\
    response op_renamed_done = response operation.
Proof.
  apply (unpack_only_when_done "gs://bucket/file.flac" "FLAC" 16000 "en-US" demo_world 19).
  vm_compute. do 14 right. left. reflexivity.
Defined.

(** X10. Every alternative that is printed is an alternative of the decoded
    response of a handle the service returned with [done] set. *)
Theorem printed_alternatives_are_decoded
  input_uri encoding0 sample_rate0 language_code0 w fuel c t :
  In (Print (OutAlternative c t))
     (calls (run fuel w 0 (main input_uri encoding0 sample_rate0 language_code0))) ->
  exists k operation response0 result0 alternative,
    polled w k = Ok operation /\ done operation = true /\
    unpacked w (response operation) = Ok response0 /\
    In result0 (results response0) /\
    In alternative (alternatives result0) /\
    c = confidence alternative /\ t = transcript alternative.
Proof.
  intros Hin.
  destruct (main_anatomy input_uri encoding0 sample_rate0 language_code0 w fuel)
    as [Hearly|(token & channel & op0 & rest & _ & _ & _ & Heq & Hstarted)].
  - exfalso. destruct Hearly as [H|[H|[(token & _ & H)|(token & channel & _ & _ & H)]]];
      rewrite H in Hin; cbn in Hin; intuition discriminate.
  - rewrite Heq in Hin. apply in_app_or in Hin. destruct Hin as [Hin|Hin].
    { exfalso. cbn in Hin. intuition discriminate. }
    destruct Hstarted as (ptr & o & post & -> & Hpoll & Hpost).
    apply in_app_or in Hin. destruct Hin as [Hin|Hin].
    { exfalso. apply poll_trace_calls in Hpoll. rewrite Forall_forall in Hpoll.
      exact (Hpoll _ Hin). }
    destruct Hpost as [->|(operation & fuel' & n' & -> & ->)]; [contradiction|].
    destruct (poll_trace_finished _ _ _ _ _ _ Hpoll operation eq_refl) as (Hdone & k & Hk).
    apply report_calls in Hin. destruct Hin as [Hin|(response0 & Hunpack & Hin)];
      [discriminate|].
    unfold report_lines in Hin. apply in_flat_map in Hin.
    destruct Hin as (result0 & Hresult & [Hin|Hin]); [discriminate|].
    apply in_map_iff in Hin. destruct Hin as (alternative & Heq' & Halt).
    injection Heq' as <- <-.
    exists k, operation, response0, result0, alternative. repeat split; assumption.
Qed.

Lemma printed_alternatives_are_decoded_witness :
  exists k operation response0 result0 alternative,
    polled demo_world k = Ok operation /\ done operation = true /\
    unpacked demo_world (response operation) = Ok response0 /\
    In result0 (results response0) /\
    In alternative (alternatives result0) /\
    0.5%float = confidence alternative /\ "hello world" = transcript alternative.
Proof.
  apply (printed_alternatives_are_decoded "gs://bucket/file.flac" "FLAC" 16000 "en-US"
           demo_world 19).
  vm_compute. do 16 right. left. reflexivity.
Defined.

Lemma wired_poll_call w channel name0 c :
  channel_reply w = Ok channel -> poll_call channel name0 c -> wired w c.
Proof.
  intros Hc. destruct c as [| | |ch req d| |o| |]; cbn; trivial; try contradiction.
  intros (-> & _). exact Hc.
Qed.

Lemma wired_report_call w c : report_call c -> wired w c.
Proof. destruct c; cbn; trivial; contradiction. Qed.

Lemma count_all_false p tr :
  Forall (fun c => p c = false) tr -> count p tr = 0%nat.
Proof. apply count_none. Qed.

Lemma poll_call_plain channel name0 c :
  poll_call channel name0 c ->
  is_submission c = false /\ is_channel_setup c = false /\ is_unpack c = false.
Proof. destruct c; cbn; intros H; repeat split; try reflexivity; contradiction. Qed.

Lemma report_call_plain c :
  report_call c -> is_submission c = false /\ is_channel_setup c = false.
Proof. destruct c; cbn; intros H; repeat split; try reflexivity; contradiction. Qed.

(** X8. The set-up is done once and shared: in every execution of [main] the
    token is asked for the cloud-platform scope only, the channel is opened
    to [speech.googleapis.com:443] with that token as bearer, the
    submission and every query go over the channel that was returned, and
    there are at most two set-up calls and at most one submission. *)
Theorem setup_once_and_shared input_uri encoding0 sample_rate0 language_code0 w fuel :
  Forall (wired w)
    (calls (run fuel w 0 (main input_uri encoding0 sample_rate0 language_code0))) /\
  (count is_channel_setup
     (calls (run fuel w 0 (main input_uri encoding0 sample_rate0 language_code0))) <= 2)%nat /\
  (count is_submission
     (calls (run fuel w 0 (main input_uri encoding0 sample_rate0 language_code0))) <= 1)%nat.
Proof.
  destruct (main_anatomy input_uri encoding0 sample_rate0 language_code0 w fuel)
    as [Hearly|(token & channel & op0 & rest & Ht & Hc & _ & Heq & Hstarted)].
  - destruct Hearly as [H|[H|[(token & Ht & H)|(token & channel & Ht & Hc & H)]]];
      rewrite H; (split; [|split; cbn; lia]); repeat constructor; cbn; eauto.
  - rewrite Heq. destruct Hstarted as (ptr & o & post & -> & Hpoll & Hpost).
    apply poll_trace_calls in Hpoll.
    assert (Hreport : Forall report_call post).
    { destruct Hpost as [->|(operation & fuel' & n' & _ & ->)]; [constructor|].
      apply report_calls_are_report_calls. }
    split; [|split].
    + apply Forall_app; split; [|apply Forall_app; split].
      * repeat constructor; cbn; eauto.
      * eapply Forall_impl; [|exact Hpoll]. intros c. now apply wired_poll_call.
      * eapply Forall_impl; [|exact Hreport]. apply wired_report_call.
    + rewrite !count_app.
      rewrite (count_none is_channel_setup ptr), (count_none is_channel_setup post).
      * cbn. lia.
      * eapply Forall_impl; [|exact Hreport]. intros c Hc'. now apply report_call_plain.
      * eapply Forall_impl; [|exact Hpoll]. intros c Hc'.
        now apply (poll_call_plain channel (name op0)).
    + rewrite !count_app.
      rewrite (count_none is_submission ptr), (count_none is_submission post).
      * cbn. lia.
      * eapply Forall_impl; [|exact Hreport]. intros c Hc'. now apply report_call_plain.
      * eapply Forall_impl; [|exact Hpoll]. intros c Hc'.
        now apply (poll_call_plain channel (name op0)).
Qed.

(** ** Failures during start-up *)

(** X7. When the credentials cannot be had, [main] stops at the token call with
    that exception: no channel is opened and nothing is submitted.  When
    the channel cannot be opened, it stops at that call. *)
Theorem channel_failure_is_fatal input_uri encoding0 sample_rate0 language_code0 w x fuel :
  (access_token_reply w = Raise x ->
   run (S fuel) w 0 (main input_uri encoding0 sample_rate0 language_code0)
   = mkRun [GetAccessToken [SPEECH_SCOPE]] 0 fuel (Raised x)) /\
  (forall token,
     access_token_reply w = Ok token ->
     channel_reply w = Raise x ->
     run (S (S fuel)) w 0 (main input_uri encoding0 sample_rate0 language_code0)
     = mkRun [GetAccessToken [SPEECH_SCOPE];
              SecureChannel "speech.googleapis.com" 443
                ("Authorization", String.append "Bearer " token)]
             0 fuel (Raised x)).
Proof.
  split.
  - intros Ht. unfold main, make_channel. repeat run_step. rewrite Ht.
    repeat run_step. reflexivity.
  - intros token Ht Hc. unfold main, make_channel. repeat run_step. rewrite Ht.
    repeat run_step. rewrite Hc. repeat run_step. reflexivity.
Qed.

Lemma channel_failure_is_fatal_witness :
  run 100 anonymous_world 0 (main "gs://bucket/file.flac" "FLAC" 16000 "en-US")
  = mkRun [GetAccessToken [SPEECH_SCOPE]] 0 99
      (Raised (Error "ApplicationDefaultCredentialsError")).
Proof.
  apply (proj1 (channel_failure_is_fatal "gs://bucket/file.flac" "FLAC" 16000 "en-US"
                  anonymous_world (Error "ApplicationDefaultCredentialsError") 99)).
  reflexivity.
Defined.

(** X6. When the submission raises (the request can be built, so the sample
    rate fits the int32 field), [main] stops there with that exception: the
    submission is not tried again, nothing is printed and no query is
    made. *)
Theorem submission_failure_is_fatal input_uri encoding0 sample_rate0 language_code0
  w token channel x fuel :
  access_token_reply w = Ok token ->
  channel_reply w = Ok channel ->
  in_int32 sample_rate0 = true ->
  submitted w (request input_uri encoding0 sample_rate0 language_code0) = Raise x ->
  run (3 + fuel) w 0 (main input_uri encoding0 sample_rate0 language_code0)
  = mkRun [GetAccessToken [SPEECH_SCOPE];
           SecureChannel "speech.googleapis.com" 443
             ("Authorization", String.append "Bearer " token);
           AsyncRecognize channel
             (request input_uri encoding0 sample_rate0 language_code0) DEADLINE_SECS]
          0 fuel (Raised x).
Proof.
  intros Ht Hc Hrange Hs. cbn [Nat.add]. unfold main, make_channel.
  repeat run_step. rewrite Ht. repeat run_step. rewrite Hc. repeat run_step.
  rewrite Hrange. repeat run_step.
  fold (request input_uri encoding0 sample_rate0 language_code0).
  rewrite Hs. repeat run_step. reflexivity.
Qed.

Lemma submission_failure_is_fatal_witness :
  outcome (run 100 unreachable_world 0 (main "gs://bucket/file.flac" "FLAC" 16000 "en-US"))
  = Raised (Error "DeadlineExceeded") /\
  count is_query
    (calls (run 100 unreachable_world 0 (main "gs://bucket/file.flac" "FLAC" 16000 "en-US")))
  = 0%nat.
Proof.
  pose proof (submission_failure_is_fatal "gs://bucket/file.flac" "FLAC" 16000 "en-US"
                unreachable_world "token" demo_channel (Error "DeadlineExceeded") 97
                eq_refl eq_refl eq_refl eq_refl) as H.
  change (3 + 97)%nat with 100%nat in H. rewrite H.
  split; reflexivity.
Defined.

(** ** Printing the results, as a property *)

Lemma length_result_lines result0 :
  List.length (result_lines result0) = S (List.length (alternatives result0)).
Proof. unfold result_lines. cbn. now rewrite length_map. Qed.

Lemma length_report_lines response0 :
  List.length (report_lines response0)
  = (List.length (results response0)
     + list_sum (map (fun result0 => List.length (alternatives result0))
                     (results response0)))%nat.
Proof.
  unfold report_lines. induction (results response0) as [|result0 l IH];
    [reflexivity|].
  cbn [flat_map map]. rewrite length_app, length_result_lines, IH.
  change (list_sum (?x :: ?l)) with (x + list_sum l)%nat.
  cbn [List.length]. lia.
Qed.

(** X11. [print_results] prints, for each result in the order of the response,
    the line [Result:] and then one line per alternative in the order of
    the result, and nothing else; cut short, it has printed a prefix of
    these lines.  It prints one line per result plus one per alternative,
    so nothing for a response without results. *)
Theorem print_results_in_order response0 w n fuel :
  calls (run fuel w n (print_results response0)) = firstn fuel (report_lines response0) /\
  ((List.length (results response0)
    + list_sum (map (fun result0 => List.length (alternatives result0))
                    (results response0)) <= fuel)%nat ->
   calls (run fuel w n (print_results response0)) = report_lines response0 /\
   outcome (run fuel w n (print_results response0)) = Finished tt).
Proof.
  rewrite run_print_results. unfold said. cbn [calls outcome].
  split; [reflexivity|]. rewrite <- length_report_lines. intros Hfuel.
  rewrite firstn_all2 by exact Hfuel.
  destruct (Nat.leb_spec (List.length (report_lines response0)) fuel); [|lia].
  split; reflexivity.
Qed.

Lemma print_results_in_order_witness :
  calls (run 2 demo_world 0 (print_results demo_response))
  = [Print OutResult; Print (OutAlternative 0.5%float "hello world")].
Proof.
  apply (print_results_in_order demo_response demo_world 0 2).
  vm_compute. lia.
Defined.

(** ** More about the command line *)

Lemma prefix_append s :
  forall text, String.prefix s text = true <-> exists rest, text = String.append s rest.
Proof.
  induction s as [|a s IH]; intros text.
  - split; [intros _; now exists text|].
    intros _. destruct text; reflexivity.
  - destruct text as [|b text]; cbn [String.prefix String.append].
    + split; [discriminate|]. intros (rest & H). discriminate.
    + destruct (ascii_dec a b) as [<-|Hneq].
      * split.
        -- intros H. apply IH in H. destruct H as (rest & ->). now exists rest.
        -- intros (rest & H). apply IH. exists rest. congruence.
      * split; [discriminate|]. intros (rest & H). congruence.
Qed.

(** X12. [_gcs_uri] accepts exactly the texts that begin with [gs://], whatever
    follows, nothing at all included, and hands them back unchanged; any
    other text is refused with its message. *)
Theorem gcs_uri_accepts_prefix text :
  (_gcs_uri text = inr text <-> exists rest, text = String.append "gs://" rest) /\
  (_gcs_uri text = inr text \/ _gcs_uri text = inl GCS_URI_MESSAGE).
Proof.
  unfold _gcs_uri. rewrite <- prefix_append.
  destruct (String.prefix "gs://" text); cbn [negb]; split; auto.
  - tauto.
  - split; discriminate.
Qed.

Lemma gcs_uri_accepts_prefix_witness : _gcs_uri "gs://" = inr "gs://".
Proof.
  apply (proj2 (proj1 (gcs_uri_accepts_prefix "gs://"))).
  exists "". reflexivity.
Defined.

Lemma parse_args_sound py_int argv ns :
  parse_args py_int argv = inr ns ->
  ns_input_uri ns = arg_input_uri argv /\
  String.prefix "gs://" (arg_input_uri argv) = true /\
  In (ns_encoding ns) ENCODING_CHOICES /\
  match opt_encoding argv with
  | None => ns_encoding ns = "LINEAR16"
  | Some text => ns_encoding ns = text
  end /\
  match opt_sample_rate argv with
  | None => ns_sample_rate ns = 16000
  | Some text => py_int text = Some (ns_sample_rate ns)
  end.
Proof.
  unfold parse_args, _gcs_uri.
  destruct (String.prefix "gs://" (arg_input_uri argv)) eqn:Hprefix; cbn [negb];
    [|discriminate].
  destruct (opt_encoding argv) as [text|].
  - destruct (existsb (String.eqb text) ENCODING_CHOICES) eqn:Hchoice; [|discriminate].
    apply existsb_exists in Hchoice. destruct Hchoice as (choice & Hin & Heqb).
    apply String.eqb_eq in Heqb. subst choice.
    destruct (opt_sample_rate argv) as [rate|].
    + destruct (py_int rate) as [n|] eqn:Hint; [|discriminate].
      intros H. injection H as <-. cbn. auto.
    + intros H. injection H as <-. cbn. auto.
  - destruct (opt_sample_rate argv) as [rate|].
    + destruct (py_int rate) as [n|] eqn:Hint; [|discriminate].
      intros H. injection H as <-. cbn. auto.
    + intros H. injection H as <-. cbn. auto.
Qed.

(** X13. Whatever the command line, a request is submitted only with validated
    values: its uri is the given one and begins with [gs://], its encoding
    is one of the five choices (the given one, or LINEAR16), its sample
    rate is the value [int] gives for the given text (or 16000) and fits the
    int32 field, its language is always en-US and its deadline ten
    seconds. *)
Theorem submitted_request_is_validated py_int argv w fuel ch req d :
  In (AsyncRecognize ch req d) (calls (run fuel w 0 (script py_int argv))) ->
  uri (audio req) = arg_input_uri argv /\
  String.prefix "gs://" (uri (audio req)) = true /\
  In (encoding (config req)) ENCODING_CHOICES /\
  match opt_encoding argv with
  | None => encoding (config req) = "LINEAR16"
  | Some text => encoding (config req) = text
  end /\
  match opt_sample_rate argv with
  | None => sample_rate (config req) = 16000
  | Some text => py_int text = Some (sample_rate (config req))
  end /\
  language_code (config req) = "en-US" /\
  d = DEADLINE_SECS /\
  in_int32 (sample_rate (config req)) = true.
Proof.
  unfold script. destruct (parse_args py_int argv) as [e|ns] eqn:Hparse.
  - intros Hin. exfalso.
    destruct fuel as [|fuel]; [repeat run_step; contradiction|].
    rewrite run_parser_error in Hin. cbn in Hin. intuition discriminate.
  - intros Hin.
    pose proof (main_submitted_in_range _ _ _ _ _ _ _ _ _ Hin) as Hrange.
    apply submissions_of_main in Hin. destruct Hin as (-> & ->).
    destruct (parse_args_sound py_int argv ns Hparse) as (Hu & Hp & He & Hoe & Hos).
    cbn [request uri audio config encoding sample_rate language_code].
    rewrite Hu. repeat split; assumption.
Qed.

Lemma submitted_request_is_validated_witness :
  uri (audio (request "gs://bucket/file.flac" "LINEAR16" 16000 "en-US"))
  = "gs://bucket/file.flac" /\
  language_code (config (request "gs://bucket/file.flac" "LINEAR16" 16000 "en-US")) = "en-US".
Proof.
  destruct (submitted_request_is_validated ascii_int
              (mkCommandLine "gs://bucket/file.flac" None None) demo_world 3
              demo_channel (request "gs://bucket/file.flac" "LINEAR16" 16000 "en-US") 10)
    as (Hu & _ & _ & _ & _ & Hl & _ & _).
  - vm_compute. do 2 right. left. reflexivity.
  - split; assumption.
Defined.

(** X14. An [--encoding] outside the five choices is a usage error: nothing goes
    over the network and the exit status is 2. *)
Theorem bad_encoding_rejected_before_network py_int argv text w fuel :
  opt_encoding argv = Some text ->
  ~ In text ENCODING_CHOICES ->
  (exists e, parse_args py_int argv = inl e) /\
  Forall (fun c => is_network c = false) (calls (run fuel w 0 (script py_int argv))) /\
  ((0 < fuel)%nat ->
   exit_status (outcome (run fuel w 0 (script py_int argv))) = Some 2) /\
  (String.prefix "gs://" (arg_input_uri argv) = true ->
   parse_args py_int argv = inl (InvalidChoice "--encoding" text)).
Proof.
  intros Henc Hnot.
  assert (Hchoice : existsb (String.eqb text) ENCODING_CHOICES = false).
  { destruct (existsb (String.eqb text) ENCODING_CHOICES) eqn:H; [|reflexivity].
    exfalso. apply existsb_exists in H. destruct H as (choice & Hin & Heqb).
    apply String.eqb_eq in Heqb. subst choice. contradiction. }
  assert (Hparse : exists e, parse_args py_int argv = inl e /\
            (String.prefix "gs://" (arg_input_uri argv) = true ->
             e = InvalidChoice "--encoding" text)).
  { unfold parse_args, _gcs_uri. rewrite Henc, Hchoice.
    destruct (String.prefix "gs://" (arg_input_uri argv)); cbn [negb].
    - eexists. split; reflexivity.
    - eexists. split; [reflexivity|discriminate]. }
  destruct Hparse as (e & Hparse & He).
  destruct (script_rejected py_int argv e w fuel Hparse) as (Hnet & Hexit).
  split; [now exists e|]. split; [exact Hnet|]. split.
  - intros Hfuel. apply Hexit. exact Hfuel.
  - intros Hprefix. rewrite Hparse, (He Hprefix). reflexivity.
Qed.

Lemma bad_encoding_rejected_before_network_witness :
  parse_args ascii_int (mkCommandLine "gs://bucket/file.flac" (Some "flac") None)
  = inl (InvalidChoice "--encoding" "flac").
Proof.
  apply (bad_encoding_rejected_before_network ascii_int
           (mkCommandLine "gs://bucket/file.flac" (Some "flac") None) "flac" demo_world 1
           eq_refl).
  - cbn. intros [H|[H|[H|[H|[H|[]]]]]]; discriminate H.
  - reflexivity.
Defined.

(** ** Counting what a loop that ends has done *)

Lemma count_passes p channel name0 ops :
  count p (passes channel name0 ops)
  = list_sum (map (fun op => count p (pass channel name0 op)) ops).
Proof.
  unfold passes. induction ops as [|op ops IH]; [reflexivity|].
  cbn [flat_map map]. rewrite count_app, IH. reflexivity.
Qed.

Lemma list_sum_ones {A : Type} (l : list A) :
  list_sum (map (fun _ => 1%nat) l) = List.length l.
Proof. induction l as [|x l IH]; [reflexivity|]. cbn [map List.length]. rewrite <- IH. reflexivity. Qed.

Lemma list_sum_flags {A : Type} (f : A -> bool) (l : list A) :
  list_sum (map (fun x => if f x then 1%nat else 0%nat) l) = List.length (filter f l).
Proof.
  induction l as [|x l IH]; [reflexivity|]. cbn [map filter].
  change (list_sum (?a :: ?r)) with (a + list_sum r)%nat.
  rewrite IH. destruct (f x); reflexivity.
Qed.

(** X2. A loop that ends after the answers [ops ++ [final]] has printed the
    waiting line, slept one second and queried once per answer, and has
    printed one warning per answer whose error has a message: an error that
    the service keeps reporting is printed again on every pass. *)
Theorem pass_counts channel name0 w ops final fuel :
  answers w 0 (ops ++ [final]) ->
  forallb pending ops = true ->
  done final = true ->
  (passes_cost (ops ++ [final]) <= fuel)%nat ->
  count is_waiting (calls (run fuel w 0 (poll channel name0))) = S (List.length ops) /\
  count is_sleep (calls (run fuel w 0 (poll channel name0))) = S (List.length ops) /\
  count is_query (calls (run fuel w 0 (poll channel name0))) = S (List.length ops) /\
  count is_warning (calls (run fuel w 0 (poll channel name0)))
  = List.length (filter has_message (ops ++ [final])).
Proof.
  intros Hans Hpend Hdone Hfuel.
  destruct (run_poll_exact channel name0 w ops final fuel Hans Hpend Hdone Hfuel)
    as (-> & _ & _).
  rewrite !count_passes.
  assert (Hlen : List.length (ops ++ [final]) = S (List.length ops)).
  { rewrite length_app. cbn. lia. }
  repeat split.
  - rewrite <- Hlen, <- list_sum_ones. f_equal. apply map_ext. intros op.
    unfold pass, warning. destruct (nonempty (message (error op))); reflexivity.
  - rewrite <- Hlen, <- list_sum_ones. f_equal. apply map_ext. intros op.
    apply count_pass_sleeps.
  - rewrite <- Hlen, <- list_sum_ones. f_equal. apply map_ext. intros op.
    apply count_pass_queries.
  - rewrite <- list_sum_flags. f_equal. apply map_ext. intros op.
    unfold pass, warning, has_message.
    destruct (nonempty (message (error op))); reflexivity.
Qed.

Lemma pass_counts_witness :
  count is_sleep (calls (run 13 demo_world 0 (poll demo_channel "operations/42"))) = 3%nat /\
  count is_warning (calls (run 13 demo_world 0 (poll demo_channel "operations/42"))) = 1%nat.
Proof.
  destruct (pass_counts demo_channel "operations/42" demo_world
              [op_pending; op_failing] op_renamed_done 13
              demo_answers eq_refl eq_refl) as (_ & Hs & _ & Hw).
  - vm_compute. lia.
  - split; assumption.
Defined.
